(** * NCAA-Scraper: the failed-game ledger and the CSV reconciliation engine

    A shallow embedding of [ncaa_scraper/failed_games.py],
    [ncaa_scraper/storage/csv_handler.py] and the retry mode of
    [ncaa_scraper/main.py], and the properties of the specification proved
    (or refuted) over it.

    Conventions of the embedding.
    - Python code that reads and writes files and may raise runs in the monad
      [io St A := St -> outcome A * St]: a state (the file system) threaded
      through, and a result that is a value or a raised exception;
      [try_except] is Python's [try: ... except Exception].
    - A Python [dict] is an association list in insertion order with the
      operations of [dict] ([pydict]); a [set] is a [gset]; the file system
      is a [gmap] from paths to file contents.
    - A file holds what the parser would return for it ([json.load],
      [pandas.read_csv]) or is unparsable. Writes themselves do not fail.
      A ledger written by [json.dump] is read back as it was written. A table
      written by [to_csv] is text: the file is kept as the table written, and
      the table [pandas.read_csv] makes of that text, which need not be the
      table written, is [read_back]. *)

From Stdlib Require Import ZArith String Ascii List.
From stdpp Require Import base option list gmap strings countable pretty.

Open Scope string_scope.
Open Scope list_scope.

(** ** Exceptions and the state-and-exception monad *)

Inductive exn : Type :=
| FileNotFoundError
| JSONDecodeError
| ParserError
| KeyError (k : string).

Inductive outcome (A : Type) : Type :=
| Ok (a : A)
| Raise (e : exn).
Arguments Ok {A} a.
Arguments Raise {A} e.

Definition io (St A : Type) : Type := St -> outcome A * St.

Section IO.
Context {St : Type}.

Definition ret {A} (a : A) : io St A := fun s => (Ok a, s).

Definition raise {A} (e : exn) : io St A := fun s => (Raise e, s).

Definition bind {A B} (m : io St A) (k : A -> io St B) : io St B :=
  fun s =>
    match m s with
    | (Ok a, s') => k a s'
    | (Raise e, s') => (Raise e, s')
    end.

(** [try: body except Exception as e: handler(e)]. What [body] wrote before
    it raised stays written. *)
Definition try_except {A} (body : io St A) (handler : exn -> io St A)
  : io St A :=
  fun s =>
    match body s with
    | (Ok a, s') => (Ok a, s')
    | (Raise e, s') => handler e s'
    end.

End IO.

Declare Scope io_scope.
Delimit Scope io_scope with io.
Notation "x <- m ;; k" := (bind m (fun x => k))
  (at level 100, m at next level, right associativity) : io_scope.
Notation "m ;;; k" := (bind m (fun _ => k))
  (at level 100, right associativity) : io_scope.
Open Scope io_scope.

(** ** Python dictionaries: association lists in insertion order *)

Section PyDict.
Context {V : Type}.

Definition pydict := list (string * V).

(** [d.get(k)] *)
Fixpoint dict_get (k : string) (d : pydict) : option V :=
  match d with
  | [] => None
  | (k', v) :: d' => if String.eqb k k' then Some v else dict_get k d'
  end.

(** [k in d] *)
Definition dict_mem (k : string) (d : pydict) : bool :=
  match dict_get k d with Some _ => true | None => false end.

(** [d[k] = v]: an existing key keeps its place, a new key goes last. *)
Fixpoint dict_set (k : string) (v : V) (d : pydict) : pydict :=
  match d with
  | [] => [(k, v)]
  | (k', v') :: d' =>
      if String.eqb k k' then (k', v) :: d' else (k', v') :: dict_set k v d'
  end.

(** [del d[k]], used by the source only on keys it has just found. *)
Fixpoint dict_del (k : string) (d : pydict) : pydict :=
  match d with
  | [] => []
  | (k', v') :: d' =>
      if String.eqb k k' then dict_del k d' else (k', v') :: dict_del k d'
  end.

Definition dict_keys (d : pydict) : list string := map fst d.

(** A [dict] has each key once. *)
Definition dict_wf (d : pydict) : Prop := NoDup (dict_keys d).

(** [d[k]] *)
Definition getitem {St} (k : string) (d : pydict) : io St V :=
  match dict_get k d with
  | Some v => ret v
  | None => raise (KeyError k)
  end.
End PyDict.
Arguments pydict V : clear implicits.

(** ** Lists updated in place *)

Section InPlace.
Context {A : Type} (p : A -> bool).

(** The loop [for x in l: if p(x): x := f(x); break]. *)
Fixpoint update_first (f : A -> A) (l : list A) : list A :=
  match l with
  | [] => []
  | x :: l' => if p x then f x :: l' else x :: update_first f l'
  end.

(** The loop [for i, x in enumerate(l): if p(x): l.pop(i); break]. *)
Fixpoint remove_first (l : list A) : list A :=
  match l with
  | [] => []
  | x :: l' => if p x then l' else x :: remove_first l'
  end.
End InPlace.

(** ** Dates *)

Record date : Type := mkDate { year : nat; month : nat; day : nat }.

Definition digit (n : nat) : ascii := ascii_of_nat (48 + n mod 10).

Definition pad2 (n : nat) : string :=
  String (digit (n / 10)) (String (digit n) "").

Definition pad4 (n : nat) : string :=
  String (digit (n / 1000)) (String (digit (n / 100)) (pad2 n)).

(** [date.isoformat()]: YYYY-MM-DD. *)
Definition isoformat (d : date) : string :=
  (pad4 (year d) ++ "-" ++ pad2 (month d) ++ "-" ++ pad2 (day d))%string.

(** ** The failed-game ledger ([failed_games.py]) *)

Module FailedGames.

(** One record of the ledger: the JSON object with the keys [division],
    [gender], [error_type], [error_message] and [retry_count]; the code
    reads [retry_count] with [.get('retry_count', 0)], so it may be
    missing. *)
Record entry : Type := mkEntry {
  division : string;
  gender : string;
  error_type : string;
  error_message : string;
  retry_count : option Z
}.

(** date -> game link -> records *)
Abbreviation bucket := (list entry).
Abbreviation ledger := (pydict (pydict (list entry))).

(** What a path of the file system holds. *)
Inductive file : Type :=
| Unparsable
| Json (l : ledger).

Abbreviation filesys := (gmap string file).

(** [Path(p).exists()] *)
Definition path_exists (p : string) : io filesys bool :=
  fun fs => (Ok (bool_decide (is_Some (fs !! p))), fs).

(** [with open(p, 'r') as f: json.load(f)] *)
Definition json_load (p : string) : io filesys ledger :=
  fun fs =>
    match fs !! p with
    | None => (Raise FileNotFoundError, fs)
    | Some Unparsable => (Raise JSONDecodeError, fs)
    | Some (Json l) => (Ok l, fs)
    end.

(** [with open(p, 'w') as f: json.dump(l, f, indent=2)] *)
Definition json_dump (l : ledger) (p : string) : io filesys unit :=
  fun fs => (Ok tt, <[p := Json l]> fs).

(** [entry['division'] == division and entry['gender'] == gender] *)
Definition matches (division_ gender_ : string) (e : entry) : bool :=
  String.eqb (division e) division_ && String.eqb (gender e) gender_.

(** Lines 64-66: the update of an existing record. *)
Definition overwrite_error (error_type_ error_message_ : string) (e : entry)
  : entry :=
  {| division := division e;
     gender := gender e;
     error_type := error_type_;
     error_message := error_message_;
     retry_count := Some (default 0%Z (retry_count e)) |}.

(** Lines 69-75: the record appended for a new key. *)
Definition new_entry (division_ gender_ error_type_ error_message_ : string)
  : entry :=
  {| division := division_;
     gender := gender_;
     error_type := error_type_;
     error_message := error_message_;
     retry_count := Some 0%Z |}.

(** Lines 55-75, on the record list of one game. *)
Definition add_or_update
    (division_ gender_ error_type_ error_message_ : string) (entries : bucket)
  : bucket :=
  match find (matches division_ gender_) entries with
  | Some _ =>
      update_first (matches division_ gender_)
        (overwrite_error error_type_ error_message_) entries
  | None =>
      entries ++ [new_entry division_ gender_ error_type_ error_message_]
  end.

(** [save_failed_game], lines 12-81. Creating the parent directory (line 34)
    has no counterpart here: the file system maps whole paths to files. *)
Definition save_failed_game
    (failed_games_file game_link : string) (date_ : date)
    (division_ gender_ error_type_ error_message_ : string)
  : io filesys unit :=
  ex <- path_exists failed_games_file ;;
  failed_games <-
    (if ex
     then try_except (json_load failed_games_file) (fun _ => ret [])
     else ret []) ;;
  let date_key := isoformat date_ in
  let failed_games :=
    if dict_mem date_key failed_games then failed_games
    else dict_set date_key [] failed_games in
  games <- getitem date_key failed_games ;;
  let games :=
    if dict_mem game_link games then games
    else dict_set game_link [] games in
  entries <- getitem game_link games ;;
  let entries :=
    add_or_update division_ gender_ error_type_ error_message_ entries in
  let failed_games :=
    dict_set date_key (dict_set game_link entries games) failed_games in
  json_dump failed_games failed_games_file.

(** [load_failed_games], lines 84-112; a [date] is always true in
    [if target_date], so only [None] takes the other branch. *)
Definition load_failed_games
    (failed_games_file : string) (target_date : option date)
  : io filesys ledger :=
  ex <- path_exists failed_games_file ;;
  if negb ex then ret []
  else
    try_except
      (failed_games <- json_load failed_games_file ;;
       match target_date with
       | Some d =>
           let date_key := isoformat d in
           ret [(date_key, default [] (dict_get date_key failed_games))]
       | None => ret failed_games
       end)
      (fun _ => ret []).

(** Lines 137-141: one game link per game with a matching record. *)
Fixpoint matching_games (division_ gender_ : string)
    (date_failed : pydict bucket) : list string :=
  match date_failed with
  | [] => []
  | (game_link, entries) :: rest =>
      if existsb (matches division_ gender_) entries
      then game_link :: matching_games division_ gender_ rest
      else matching_games division_ gender_ rest
  end.

(** [get_failed_games_for_division_gender], lines 115-143. *)
Definition get_failed_games_for_division_gender
    (failed_games : ledger) (target_date : date)
    (division_ gender_ : string) : list string :=
  let date_key := isoformat target_date in
  let date_failed := default [] (dict_get date_key failed_games) in
  matching_games division_ gender_ date_failed.

(** Line 193. *)
Definition bump_retry (e : entry) : entry :=
  {| division := division e;
     gender := gender e;
     error_type := error_type e;
     error_message := error_message e;
     retry_count := Some (default 0 (retry_count e) + 1)%Z |}.

(** Lines 182-194, on the game mapping of one date: [entries] is the list
    object stored under [game_link], changed in place. *)
Definition retry_in_games
    (game_link division_ gender_ : string) (success : bool)
    (entries : bucket) (games : pydict bucket) : pydict bucket :=
  match find (matches division_ gender_) entries with
  | Some _ =>
      if success then
        let entries := remove_first (matches division_ gender_) entries in
        match entries with
        | [] => dict_del game_link games
        | _ :: _ => dict_set game_link entries games
        end
      else
        dict_set game_link
          (update_first (matches division_ gender_) bump_retry entries) games
  | None => games
  end.

(** [mark_game_as_retried], lines 146-205. *)
Definition mark_game_as_retried
    (failed_games_file game_link : string) (target_date : date)
    (division_ gender_ : string) (success : bool)
  : io filesys unit :=
  ex <- path_exists failed_games_file ;;
  if negb ex then ret tt
  else
    try_except
      (failed_games <- json_load failed_games_file ;;
       let date_key := isoformat target_date in
       if negb (dict_mem date_key failed_games) then ret tt
       else
         games <- getitem date_key failed_games ;;
         if negb (dict_mem game_link games) then ret tt
         else
           entries <- getitem game_link games ;;
           let games :=
             retry_in_games game_link division_ gender_ success entries games in
           let failed_games := dict_set date_key games failed_games in
           let failed_games :=
             match dict_get date_key failed_games with
             | Some [] => dict_del date_key failed_games
             | _ => failed_games
             end in
           json_dump failed_games failed_games_file)
      (fun _ => ret tt).

(** *** Reading the ledger *)

(** The records stored for a game on a date (none when either is missing). *)
Definition entries_of (l : ledger) (date_key game_link : string) : bucket :=
  default [] (games ← dict_get date_key l; dict_get game_link games).

(** The records of the key (date, game, division, gender). *)
Definition records_for (l : ledger) (date_key game_link : string)
    (division_ gender_ : string) : list entry :=
  filter (fun e => matches division_ gender_ e = true)
    (entries_of l date_key game_link).

(** The ledger a path stands for: a missing or unparsable file is the empty
    ledger. *)
Definition ledger_at (fs : filesys) (p : string) : ledger :=
  match fs !! p with
  | Some (Json l) => l
  | _ => []
  end.

(** What identifies a record in the list of its game. *)
Definition entry_key (e : entry) : string * string := (division e, gender e).

(** The invariant of the data model: at most one record per
    (date, game, division, gender). *)
Definition at_most_one (l : ledger) : Prop :=
  forall date_key game_link division_ gender_,
    length (records_for l date_key game_link division_ gender_) <= 1.

(** Python dictionaries all the way down: each date once, and under a date
    each game once. *)
Definition ledger_wf (l : ledger) : Prop :=
  dict_wf l /\ Forall (fun dg => dict_wf dg.2) l.

(** *** The ledger each operation leaves in the file

    [save_failed_game] and [mark_game_as_retried] as functions from the
    ledger read to the ledger written; the theorems [save_failed_game_run]
    and [mark_game_as_retried_run] relate them to the code above. *)

Definition saved_ledger
    (game_link date_key division_ gender_ error_type_ error_message_ : string)
    (l : ledger) : ledger :=
  let games := default [] (dict_get date_key l) in
  let entries := default [] (dict_get game_link games) in
  dict_set date_key
    (dict_set game_link
       (add_or_update division_ gender_ error_type_ error_message_ entries)
       games)
    l.

Definition marked_ledger
    (game_link date_key division_ gender_ : string) (success : bool)
    (l : ledger) : ledger :=
  match dict_get date_key l with
  | None => l
  | Some games =>
      match dict_get game_link games with
      | None => l
      | Some entries =>
          let games :=
            retry_in_games game_link division_ gender_ success entries games in
          match games with
          | [] => dict_del date_key (dict_set date_key games l)
          | _ :: _ => dict_set date_key games l
          end
      end
  end.

(** *** Sequences of calls for one key *)

Inductive op : Type :=
| Save (error_type_ error_message_ : string)
| Retried (success : bool).

Section OneKey.
Variables (failed_games_file game_link : string) (date_ : date).
Variables (division_ gender_ : string).

Definition run_op (o : op) : io filesys unit :=
  match o with
  | Save error_type_ error_message_ =>
      save_failed_game failed_games_file game_link date_
        division_ gender_ error_type_ error_message_
  | Retried success =>
      mark_game_as_retried failed_games_file game_link date_
        division_ gender_ success
  end.

Fixpoint run_ops (ops : list op) : io filesys unit :=
  match ops with
  | [] => ret tt
  | o :: ops' => run_op o ;;; run_ops ops'
  end.

(** The records of the key once [ops] have run on [fs]. *)
Definition records_after (ops : list op) (fs : filesys) : list entry :=
  records_for (ledger_at (run_ops ops fs).2 failed_games_file)
    (isoformat date_) game_link division_ gender_.
End OneKey.

Definition is_success (o : op) : bool :=
  match o with Retried true => true | _ => false end.

Definition is_failure (o : op) : bool :=
  match o with Retried false => true | _ => false end.

Definition is_save (o : op) : bool :=
  match o with Save _ _ => true | _ => false end.

(** The error fields of the last [Save] of a sequence. *)
Fixpoint last_save (ops : list op) : option (string * string) :=
  match ops with
  | [] => None
  | o :: ops' =>
      match last_save ops', o with
      | Some x, _ => Some x
      | None, Save error_type_ error_message_ =>
          Some (error_type_, error_message_)
      | None, Retried _ => None
      end
  end.

(** The calls after the last successful retry (all of them if there is
    none). *)
Fixpoint after_last_success (ops : list op) : list op :=
  match ops with
  | [] => []
  | o :: ops' =>
      if existsb is_success ops' then after_last_success ops'
      else if is_success o then ops'
      else o :: ops'
  end.

(** The calls from the first [Save] on. *)
Fixpoint from_first_save (ops : list op) : list op :=
  match ops with
  | [] => []
  | o :: ops' => if is_save o then o :: ops' else from_first_save ops'
  end.

(** The number of [mark_game_as_retried(success=False)] calls. *)
Definition failed_retries (ops : list op) : Z :=
  Z.of_nat (length (filter (fun o => is_failure o = true) ops)).

(** The calls that count for the record of the key: those since the record
    was last created, that is from the first [Save] after the last
    successful retry. *)
Definition live_ops (ops : list op) : list op :=
  from_first_save (after_last_success ops).

(** *** A ledger to test on *)

Definition ledger_example : ledger :=
  [("2025-01-12",
    [("g1", [{| division := "d1"; gender := "men"; error_type := "timeout";
                error_message := ""; retry_count := None |};
             {| division := "d2"; gender := "men"; error_type := "timeout";
                error_message := ""; retry_count := Some 2%Z |}])])].

End FailedGames.

(** ** The CSV reconciliation engine ([storage/csv_handler.py]) *)

Module CSVHandler.

(** A value of a table cell as [pandas.read_csv] gives it: text, a number,
    a boolean, or the missing value. *)
Inductive cell : Type :=
| CStr (s : string)
| CInt (z : Z)
| CBool (b : bool)
| CNaN.

#[global] Instance cell_eq_dec : EqDecision cell.
Proof. solve_decision. Defined.

Definition cell_to_sum (c : cell) : string + Z + bool + unit :=
  match c with
  | CStr s => inl (inl (inl s))
  | CInt z => inl (inl (inr z))
  | CBool b => inl (inr b)
  | CNaN => inr tt
  end.

Definition cell_of_sum (x : string + Z + bool + unit) : cell :=
  match x with
  | inl (inl (inl s)) => CStr s
  | inl (inl (inr z)) => CInt z
  | inl (inr b) => CBool b
  | inr _ => CNaN
  end.

#[global] Program Instance cell_countable : Countable cell :=
  inj_countable' cell_to_sum cell_of_sum _.
Next Obligation. by intros []. Qed.

(** A [DataFrame]: the header and the rows, each row one cell per column. *)
Record DataFrame : Type := mkDF {
  columns : list string;
  rows : list (list cell)
}.

(** What [read_csv] returns is rectangular and names each column once. *)
Definition df_wf (df : DataFrame) : Prop :=
  NoDup (columns df)
  ∧ Forall (fun r => length r = length (columns df)) (rows df).

(** ['c' in df.columns] *)
Definition has_column (c : string) (df : DataFrame) : bool :=
  bool_decide (c ∈ columns df).

Fixpoint col_index (c : string) (cols : list string) : option nat :=
  match cols with
  | [] => None
  | c' :: cols' =>
      if String.eqb c c' then Some 0 else S <$> col_index c cols'
  end.

(** The cell of row [r] under column [c]; missing when there is none. *)
Definition cell_at (cols : list string) (c : string) (r : list cell) : cell :=
  match col_index c cols with
  | Some i => default CNaN (r !! i)
  | None => CNaN
  end.

(** [df[c].values], asked by the source only for a column that is there. *)
Definition column_values (c : string) (df : DataFrame) : list cell :=
  map (cell_at (columns df) c) (rows df).

(** [df.empty] *)
Definition empty (df : DataFrame) : bool :=
  match columns df, rows df with
  | [], _ => true
  | _, [] => true
  | _, _ => false
  end.

(** [df[~df[c].isin(s)].copy()] *)
Definition drop_isin (c : string) (s : gset cell) (df : DataFrame)
  : DataFrame :=
  {| columns := columns df;
     rows := filter (fun r => cell_at (columns df) c r ∉ s) (rows df) |}.

(** Row [r] of a table with header [src], laid out under header [out]. *)
Definition reindex (src out : list string) (r : list cell) : list cell :=
  map (fun c => cell_at src c r) out.

(** [pd.concat([a, b], ignore_index=True)]: the columns of [a], then those
    of [b] that [a] lacks; a row has the missing value where its table had
    no such column. *)
Definition concat (a b : DataFrame) : DataFrame :=
  let cols := columns a ++ filter (fun c => c ∉ columns a) (columns b) in
  {| columns := cols;
     rows := map (reindex (columns a) cols) (rows a)
             ++ map (reindex (columns b) cols) (rows b) |}.

(** [df[c] = v] for a new column [c]. *)
Definition add_column (c : string) (v : cell) (df : DataFrame) : DataFrame :=
  {| columns := columns df ++ [c];
     rows := map (fun r => r ++ [v]) (rows df) |}.

(** [df.loc[mask, c] = v] *)
Definition set_where (mask : list cell -> bool) (c : string) (v : cell)
    (df : DataFrame) : DataFrame :=
  {| columns := columns df;
     rows :=
       map (fun r =>
              if mask r then
                match col_index c (columns df) with
                | Some i => <[i := v]> r
                | None => r
                end
              else r)
         (rows df) |}.

Inductive file : Type :=
| Unreadable
| Table (df : DataFrame).

Abbreviation filesys := (gmap string file).

(** [os.path.exists(p)] *)
Definition os_path_exists (p : string) : io filesys bool :=
  fun fs => (Ok (bool_decide (is_Some (fs !! p))), fs).

(** [pd.read_csv(p)] *)
Definition pd_read_csv (p : string) : io filesys DataFrame :=
  fun fs =>
    match fs !! p with
    | None => (Raise FileNotFoundError, fs)
    | Some Unreadable => (Raise ParserError, fs)
    | Some (Table df) => (Ok df, fs)
    end.

(** [df.to_csv(p, index=False)]. The file is kept as the table written;
    the table a later [read_csv] makes of its text is [read_back], below. *)
Definition to_csv (df : DataFrame) (p : string) : io filesys unit :=
  fun fs => (Ok tt, <[p := Table df]> fs).

Definition GAMEID : string := "GAMEID".
Definition GAMELINK : string := "GAMELINK".
Definition DUPLICATE_ACROSS_DIVISIONS : string := "DUPLICATE_ACROSS_DIVISIONS".

(** [CSVHandler.game_exists_in_csv], lines 17-38. *)
Definition game_exists_in_csv (csv_path game_id : string) : io filesys bool :=
  ex <- os_path_exists csv_path ;;
  if negb ex then ret false
  else
    try_except
      (df <- pd_read_csv csv_path ;;
       if has_column GAMEID df
       then ret (bool_decide (CStr game_id ∈ column_values GAMEID df))
       else ret false)
      (fun _ => ret false).

(** [CSVHandler.read_csv_safely], lines 60-76. *)
Definition read_csv_safely (csv_path : string)
  : io filesys (option DataFrame) :=
  try_except
    (ex <- os_path_exists csv_path ;;
     if negb ex then ret None
     else df <- pd_read_csv csv_path ;; ret (Some df))
    (fun _ => ret None).

(** [CSVHandler.update_duplicate_flag], lines 131-166. *)
Definition update_duplicate_flag
    (csv_path game_link : string) (duplicate_value : bool)
  : io filesys bool :=
  try_except
    (odf <- read_csv_safely csv_path ;;
     match odf with
     | None => ret false
     | Some df =>
         if negb (has_column GAMELINK df) then ret false
         else
           let df :=
             if negb (has_column DUPLICATE_ACROSS_DIVISIONS df)
             then add_column DUPLICATE_ACROSS_DIVISIONS (CBool false) df
             else df in
           let mask r :=
             bool_decide (cell_at (columns df) GAMELINK r = CStr game_link) in
           let df :=
             set_where mask DUPLICATE_ACROSS_DIVISIONS
               (CBool duplicate_value) df in
           to_csv df csv_path ;;;
           ret true
     end)
    (fun _ => ret false).

(** Lines 197-216: the rows of [new_df] that pass the duplicate filter. *)
Definition filter_new (existing_df new_df : DataFrame) : DataFrame :=
  let existing_game_ids : gset cell :=
    if has_column GAMEID existing_df
    then list_to_set (column_values GAMEID existing_df)
    else ∅ in
  if has_column GAMEID new_df then
    drop_isin GAMEID existing_game_ids new_df
  else
    let existing_game_links : gset cell :=
      if has_column GAMELINK existing_df
      then list_to_set (column_values GAMELINK existing_df)
      else ∅ in
    if has_column GAMELINK new_df then
      drop_isin GAMELINK existing_game_links new_df
    else new_df.

(** [CSVHandler.merge_csv_files], lines 168-234. *)
Definition merge_csv_files
    (existing_csv_path new_csv_path output_path : string)
  : io filesys bool :=
  try_except
    (existing_df <- read_csv_safely existing_csv_path ;;
     new_df <- read_csv_safely new_csv_path ;;
     match existing_df with
     | None =>
         match new_df with
         | Some new_df => to_csv new_df output_path ;;; ret true
         | None => ret false
         end
     | Some existing_df =>
         match new_df with
         | None => to_csv existing_df output_path ;;; ret true
         | Some new_df =>
             if empty new_df then
               to_csv existing_df output_path ;;; ret true
             else
               let new_df_filtered := filter_new existing_df new_df in
               if empty new_df_filtered then
                 to_csv existing_df output_path ;;; ret true
               else
                 let merged_df := concat existing_df new_df_filtered in
                 to_csv merged_df output_path ;;;
                 ret true
         end
     end)
    (fun _ => ret false).

(** The table [merge_csv_files] writes for two tables that are there. *)
Definition merged (existing_df new_df : DataFrame) : DataFrame :=
  if empty new_df then existing_df
  else
    let new_df_filtered := filter_new existing_df new_df in
    if empty new_df_filtered then existing_df
    else concat existing_df new_df_filtered.

(** [CSVHandler.get_existing_game_ids], lines 78-91. *)
Definition get_existing_game_ids (csv_path : string)
  : io filesys (gset cell) :=
  odf <- read_csv_safely csv_path ;;
  match odf with
  | Some df =>
      if has_column GAMEID df
      then ret (list_to_set (column_values GAMEID df))
      else ret ∅
  | None => ret ∅
  end.

Definition required_columns : list string :=
  [GAMEID; "TEAM"; "OPP"; GAMELINK].

(** [CSVHandler.validate_csv_structure], lines 93-108. *)
Definition validate_csv_structure (csv_path : string) : io filesys bool :=
  odf <- read_csv_safely csv_path ;;
  match odf with
  | None => ret false
  | Some df => ret (forallb (fun col => has_column col df) required_columns)
  end.

(** [df[df[c] == v].copy()] *)
Definition select_eq (c : string) (v : cell) (df : DataFrame) : DataFrame :=
  {| columns := columns df;
     rows := filter (fun r => cell_at (columns df) c r = v) (rows df) |}.

(** [CSVHandler.get_game_data_by_link], lines 110-129. *)
Definition get_game_data_by_link (csv_path game_link : string)
  : io filesys (option DataFrame) :=
  odf <- read_csv_safely csv_path ;;
  match odf with
  | None => ret None
  | Some df =>
      if negb (has_column GAMELINK df) then ret None
      else
        let game_rows := select_eq GAMELINK (CStr game_link) df in
        if empty game_rows then ret None
        else ret (Some game_rows)
  end.

(** The table [update_duplicate_flag] writes for a table that is there and
    has GAMELINK: lines 151-157. *)
Definition with_flag_column (df : DataFrame) : DataFrame :=
  if negb (has_column DUPLICATE_ACROSS_DIVISIONS df)
  then add_column DUPLICATE_ACROSS_DIVISIONS (CBool false) df
  else df.

Definition flagged (game_link : string) (duplicate_value : bool)
    (df : DataFrame) : DataFrame :=
  let df := with_flag_column df in
  set_where
    (fun r => bool_decide (cell_at (columns df) GAMELINK r = CStr game_link))
    DUPLICATE_ACROSS_DIVISIONS (CBool duplicate_value) df.

(** What lines 152-157 do to one row of the table read. *)
Definition flag_row (game_link : string) (duplicate_value : bool)
    (df : DataFrame) (r : list cell) : list cell :=
  let r0 :=
    if has_column DUPLICATE_ACROSS_DIVISIONS df then r
    else r ++ [CBool false] in
  let cols0 := columns (with_flag_column df) in
  if bool_decide (cell_at cols0 GAMELINK r0 = CStr game_link) then
    match col_index DUPLICATE_ACROSS_DIVISIONS cols0 with
    | Some i => <[i := CBool duplicate_value]> r0
    | None => r0
    end
  else r0.

(** *** A written table, read again

    [df.to_csv(p, index=False)] writes text: the header, then a line per
    row, a number in decimal, a boolean as [True] or [False], the missing
    value as the empty field. [pd.read_csv(p)] decides the type of each
    column anew from that text: a column whose fields are all numbers is read
    as numbers, one whose fields are all [True] or [False] as booleans, and a
    column with a field that is neither is read as text, every field of it,
    the empty field as the missing value. So a column that held both numbers
    and text when it was written holds only text when it is read.

    [read_back df] is the table read from the file that [to_csv] wrote for
    [df]. It is given for the tables on which the outcome does not depend on
    the details of the parser, and is [None] on the others: a field that is
    text must not look like a number, a boolean or a missing value unless it
    consists of digits in a column that is read as text, numbers are within
    the range a float holds exactly, no row is missing throughout, and the
    header names each column once, with a name that is not empty. A number
    is an integer and is written without a decimal point; next to a missing
    value pandas holds it as a float, which is the same number when the
    column is read as numbers, and a column read as text that has both is
    left out. *)




















(** *** Tables to test on *)

(** An existing table with the games A and B, and a new one with B and C. *)
Definition existing_AB : DataFrame :=
  {| columns := [GAMEID; "TEAM"; GAMELINK];
     rows := [[CStr "A"; CStr "Home A"; CStr "link/A"];
              [CStr "B"; CStr "Home B"; CStr "link/B"]] |}.

Definition new_BC : DataFrame :=
  {| columns := [GAMEID; "TEAM"; GAMELINK];
     rows := [[CStr "B"; CStr "Retried B"; CStr "link/B"];
              [CStr "C"; CStr "Home C"; CStr "link/C"]] |}.

(** An existing table that has only the game link, and a new table with
    both columns whose only game has that link. *)
Definition existing_links : DataFrame :=
  {| columns := [GAMELINK]; rows := [[CStr "link/1"]] |}.

Definition new_with_ids : DataFrame :=
  {| columns := [GAMEID; GAMELINK];
     rows := [[CStr "X"; CStr "link/1"]] |}.

Definition tables_AB_BC : filesys :=
  {["existing.csv" := Table existing_AB; "new.csv" := Table new_BC]}.

Definition tables_links : filesys :=
  {["existing.csv" := Table existing_links;
    "new.csv" := Table new_with_ids]}.







End CSVHandler.

(** ** The retry bookkeeping of [main.py]

    The parts of [main] and [_scrape_games_from_mapping] that drive the
    ledger. Scraping itself is outside: for the bookkeeping of one game its
    outcome is an argument, and retry mode is given the scraper it calls. *)

Module Main.
Import FailedGames.

(** [if s:] for an argument that is a [str] or [None]. *)
Definition truthy (s : option string) : bool :=
  match s with
  | Some s => negb (String.eqb s "")
  | None => false
  end.

(** Use of a path known to be there. *)
Definition path_of (s : option string) : string := default "" s.

(** [_scrape_games_from_mapping], lines 458-482: what is written to the
    ledger once [_scrape_single_game] has returned [game_data] for a game. *)
Definition record_scrape_result
    (failed_games_file : option string) (is_retry : bool)
    (game_link : string) (target_date : date) (division_ gender_ : string)
    (game_data : bool) : io filesys unit :=
  if game_data then
    if is_retry && truthy failed_games_file then
      mark_game_as_retried (path_of failed_games_file) game_link target_date
        division_ gender_ true
    else ret tt
  else
    (if truthy failed_games_file then
       save_failed_game (path_of failed_games_file) game_link target_date
         division_ gender_ "timeout" "Game failed to scrape"
     else ret tt) ;;;
    if is_retry && truthy failed_games_file then
      mark_game_as_retried (path_of failed_games_file) game_link target_date
        division_ gender_ false
    else ret tt.

(** [_scrape_games_from_mapping], lines 498-515: the same after an exception
    with message [message]. *)
Definition record_scrape_exception
    (failed_games_file : option string) (is_retry : bool)
    (game_link : string) (target_date : date) (division_ gender_ : string)
    (message : string) : io filesys unit :=
  (if truthy failed_games_file then
     save_failed_game (path_of failed_games_file) game_link target_date
       division_ gender_ "exception" message
   else ret tt) ;;;
  if is_retry && truthy failed_games_file then
    mark_game_as_retried (path_of failed_games_file) game_link target_date
      division_ gender_ false
  else ret tt.




Section RetryMode.

(** What the program works in: the ledger files are a part of it, next to
    the CSV files, the browser and the remote storage. *)
Context {World : Type}.
Variable ledger_files : World -> filesys.
Variable with_ledger_files : filesys -> World -> World.

(** [NCAAScraper(config)] and
    [_scrape_games_from_mapping(scraper, game_links, target_date, division,
    gender, config.output_dir, failed_games_file=..., is_retry=True)]:
    whatever they do to the world, and they may raise. *)
Variable NCAAScraper : io World unit.
Variable scrape_games_from_mapping :
  list string -> date -> string -> string -> io World unit.



End RetryMode.



End Main.

(** * Properties *)

(** ** Running the monad *)

Section IOFacts.
Context {St : Type}.

Lemma bind_run {A B} (m : io St A) (k : A -> io St B) s a s' :
  m s = (Ok a, s') -> bind m k s = k a s'.
Proof. unfold bind. by intros ->. Qed.

Lemma bind_raise {A B} (m : io St A) (k : A -> io St B) s e s' :
  m s = (Raise e, s') -> bind m k s = (Raise e, s').
Proof. unfold bind. by intros ->. Qed.

Lemma try_except_ok {A} (m : io St A) h s a s' :
  m s = (Ok a, s') -> try_except m h s = (Ok a, s').
Proof. unfold try_except. by intros ->. Qed.

Lemma try_except_raise {A} (m : io St A) h s e s' :
  m s = (Raise e, s') -> try_except m h s = h e s'.
Proof. unfold try_except. by intros ->. Qed.
End IOFacts.

(** ** Dictionaries *)

Section PyDictFacts.
Context {V : Type}.
Implicit Types (d : pydict V) (k : string) (v : V).

Lemma dict_get_set_eq k v d : dict_get k (dict_set k v d) = Some v.
Proof.
  induction d as [|[k' v'] d IH]; simpl.
  - by rewrite String.eqb_refl.
  - destruct (String.eqb k k') eqn:E; simpl; rewrite E; [done | apply IH].
Qed.

Lemma dict_get_set_ne k k' v d :
  k ≠ k' -> dict_get k' (dict_set k v d) = dict_get k' d.
Proof.
  intros Hne. induction d as [|[k0 v0] d IH]; simpl.
  - destruct (String.eqb_spec k' k); congruence.
  - destruct (String.eqb_spec k k0) as [->|]; simpl.
    + destruct (String.eqb_spec k' k0); congruence.
    + by rewrite IH.
Qed.

Lemma dict_set_set k v v' d : dict_set k v' (dict_set k v d) = dict_set k v' d.
Proof.
  induction d as [|[k0 v0] d IH]; simpl.
  - by rewrite String.eqb_refl.
  - destruct (String.eqb k k0) eqn:E; simpl; rewrite E; [done | by rewrite IH].
Qed.

Lemma dict_get_del_eq k d : dict_get k (dict_del k d) = None.
Proof.
  induction d as [|[k0 v0] d IH]; simpl; [done|].
  destruct (String.eqb k k0) eqn:E; simpl; [done | by rewrite E].
Qed.

Lemma dict_get_del_ne k k' d :
  k ≠ k' -> dict_get k' (dict_del k d) = dict_get k' d.
Proof.
  intros Hne. induction d as [|[k0 v0] d IH]; simpl; [done|].
  destruct (String.eqb_spec k k0) as [->|]; simpl.
  - destruct (String.eqb_spec k' k0); congruence.
  - by rewrite IH.
Qed.

Lemma dict_mem_get k d : dict_mem k d = true <-> is_Some (dict_get k d).
Proof.
  unfold dict_mem. destruct (dict_get k d); split; intros H; try done.
Qed.

Lemma dict_get_Some_elem k v d : dict_get k d = Some v -> (k, v) ∈ d.
Proof.
  induction d as [|[k0 v0] d IH]; simpl; [done|].
  destruct (String.eqb_spec k k0) as [->|].
  - intros [= ->]. left.
  - intros H. right. by apply IH.
Qed.

Lemma dict_elem_get k v d : dict_wf d -> (k, v) ∈ d -> dict_get k d = Some v.
Proof.
  unfold dict_wf, dict_keys.
  induction d as [|[k0 v0] d IH]; simpl; intros Hnd Hin.
  - by apply elem_of_nil in Hin.
  - apply list.NoDup_cons in Hnd as [Hk0 Hnd].
    apply elem_of_cons in Hin as [[= -> ->]|Hin].
    + by rewrite String.eqb_refl.
    + destruct (String.eqb_spec k k0) as [->|]; [|by apply IH].
      exfalso. apply Hk0. apply list_elem_of_fmap. by exists (k0, v).
Qed.

Lemma dict_keys_set_mem k v d :
  is_Some (dict_get k d) -> dict_keys (dict_set k v d) = dict_keys d.
Proof.
  unfold dict_keys. induction d as [|[k0 v0] d IH]; simpl.
  - by intros [? ?].
  - destruct (String.eqb k k0); simpl; [done|]. intros H. by rewrite IH.
Qed.

Lemma dict_keys_del k d :
  dict_keys (dict_del k d) = filter (fun k' => k' ≠ k) (dict_keys d).
Proof.
  unfold dict_keys. induction d as [|[k0 v0] d IH]; simpl; [done|].
  rewrite filter_cons. simpl.
  destruct (String.eqb_spec k k0) as [->|].
  - by rewrite decide_False by tauto.
  - rewrite decide_True by congruence. simpl. by rewrite IH.
Qed.

Lemma dict_wf_set_mem k v d :
  is_Some (dict_get k d) -> dict_wf d -> dict_wf (dict_set k v d).
Proof. unfold dict_wf. intros H. by rewrite dict_keys_set_mem. Qed.

Lemma dict_wf_del k d : dict_wf d -> dict_wf (dict_del k d).
Proof. unfold dict_wf. rewrite dict_keys_del. apply list.NoDup_filter. Qed.

Lemma dict_del_set k v d : dict_del k (dict_set k v d) = dict_del k d.
Proof.
  induction d as [|[k0 v0] d IH]; simpl.
  - by rewrite String.eqb_refl.
  - destruct (String.eqb k k0) eqn:E; simpl; rewrite E; [done | by rewrite IH].
Qed.

Lemma dict_del_not_elem k v d : (k, v) ∉ dict_del k d.
Proof.
  intros Hin. assert (Hk : k ∈ dict_keys (dict_del k d)).
  { apply list_elem_of_fmap. by exists (k, v). }
  rewrite dict_keys_del in Hk. apply list_elem_of_filter in Hk as [Hk _].
  done.
Qed.

(** [if k not in d: d[k] = v], then [d[k]]. *)
Lemma getitem_setdefault {St} k v d (s : St) :
  getitem k (if dict_mem k d then d else dict_set k v d) s
  = (Ok (default v (dict_get k d)), s).
Proof.
  unfold getitem, dict_mem.
  destruct (dict_get k d) eqn:E; simpl.
  - by rewrite E.
  - by rewrite dict_get_set_eq.
Qed.

Lemma dict_set_setdefault k v v' d :
  dict_set k v' (if dict_mem k d then d else dict_set k v d) = dict_set k v' d.
Proof. destruct (dict_mem k d); [done | apply dict_set_set]. Qed.
End PyDictFacts.

(** ** Lists updated in place *)

Section InPlaceFacts.
Context {A : Type} (p : A -> bool).
Implicit Types (l pre post : list A).

Lemma find_none_forall l :
  find p l = None <-> Forall (fun x => p x = false) l.
Proof.
  induction l as [|x l IH]; simpl.
  - split; [constructor | done].
  - destruct (p x) eqn:E.
    + split; [done|]. intros H. apply list.Forall_cons in H as [H _]. congruence.
    + rewrite IH. split; [by constructor|]. by intros [_ H]%list.Forall_cons.
Qed.

Lemma find_at_first pre x post :
  Forall (fun y => p y = false) pre -> p x = true ->
  find p (pre ++ x :: post) = Some x.
Proof.
  induction 1 as [|y pre Hy _ IH]; simpl; intros Hx.
  - by rewrite Hx.
  - rewrite Hy. by apply IH.
Qed.

Lemma update_first_at f pre x post :
  Forall (fun y => p y = false) pre -> p x = true ->
  update_first p f (pre ++ x :: post) = pre ++ f x :: post.
Proof.
  induction 1 as [|y pre Hy _ IH]; simpl; intros Hx.
  - by rewrite Hx.
  - rewrite Hy. by rewrite IH.
Qed.

Lemma remove_first_at pre x post :
  Forall (fun y => p y = false) pre -> p x = true ->
  remove_first p (pre ++ x :: post) = pre ++ post.
Proof.
  induction 1 as [|y pre Hy _ IH]; simpl; intros Hx.
  - by rewrite Hx.
  - rewrite Hy. by rewrite IH.
Qed.

Lemma filter_none l :
  Forall (fun y => p y = false) l -> filter (fun y => p y = true) l = [].
Proof.
  induction 1 as [|y l Hy _ IH]; [done|].
  rewrite filter_cons. rewrite decide_False by congruence. done.
Qed.

Lemma filter_update_first_length (q : A -> bool) f l :
  (forall x, q (f x) = q x) ->
  length (filter (fun y => q y = true) (update_first p f l))
  = length (filter (fun y => q y = true) l).
Proof.
  intros Hq. induction l as [|x l IH]; simpl; [done|].
  destruct (p x).
  - rewrite !filter_cons, Hq. by destruct (decide (q x = true)).
  - rewrite !filter_cons. destruct (decide (q x = true)); simpl; by rewrite IH.
Qed.

Lemma filter_update_first f l :
  (forall x, p (f x) = p x) ->
  filter (fun y => p y = true) (update_first p f l)
  = match filter (fun y => p y = true) l with
    | [] => []
    | x :: r => f x :: r
    end.
Proof.
  intros Hp. induction l as [|x l IH]; simpl; [done|].
  destruct (p x) eqn:E.
  - rewrite !filter_cons, Hp, E. by rewrite !decide_True by done.
  - rewrite !filter_cons, E. by rewrite !decide_False by done.
Qed.

Lemma filter_remove_first l :
  filter (fun y => p y = true) (remove_first p l)
  = tail (filter (fun y => p y = true) l).
Proof.
  induction l as [|x l IH]; simpl; [done|].
  destruct (p x) eqn:E.
  - rewrite filter_cons, E. by rewrite decide_True by done.
  - rewrite !filter_cons, E. by rewrite !decide_False by done.
Qed.

Lemma existsb_false_forall l :
  existsb p l = false <-> Forall (fun y => p y = false) l.
Proof.
  induction l as [|x l IH]; simpl.
  - split; [constructor | done].
  - rewrite orb_false_iff, IH, list.Forall_cons. done.
Qed.

Lemma filter_nil_forall l :
  filter (fun y => p y = true) l = [] -> Forall (fun y => p y = false) l.
Proof.
  induction l as [|x l IH]; [constructor|].
  rewrite filter_cons. destruct (p x) eqn:E.
  - by rewrite decide_True by done.
  - rewrite decide_False by done. intros H. constructor; [done | by apply IH].
Qed.

Lemma filter_remove_first_length (q : A -> bool) l :
  length (filter (fun y => q y = true) (remove_first p l))
  <= length (filter (fun y => q y = true) l).
Proof.
  induction l as [|x l IH]; simpl; [done|].
  destruct (p x).
  - rewrite filter_cons. destruct (decide (q x = true)); simpl; lia.
  - rewrite !filter_cons. destruct (decide (q x = true)); simpl; lia.
Qed.

Lemma find_filter l :
  find p l = head (filter (fun y => p y = true) l).
Proof.
  induction l as [|x l IH]; simpl; [done|].
  rewrite filter_cons. destruct (p x) eqn:E.
  - by rewrite decide_True by done.
  - by rewrite decide_False by done.
Qed.
End InPlaceFacts.

(** ** The failed-game ledger *)

Section FailedGamesFacts.
Import FailedGames.
Implicit Types (fs : filesys) (l : ledger) (p g dk dv gd et em : string).

Lemma matches_entry_key dv gd e :
  matches dv gd e = true <-> division e = dv /\ gender e = gd.
Proof.
  unfold matches. rewrite andb_true_iff.
  by rewrite !String.eqb_eq.
Qed.

(** Lines 36-44: a missing or unparsable file is the empty ledger. *)
Lemma load_or_empty p fs :
  (if bool_decide (is_Some (fs !! p))
   then try_except (json_load p) (fun _ => ret [])
   else ret []) fs
  = (Ok (ledger_at fs p), fs).
Proof.
  unfold try_except, json_load, ledger_at, ret.
  destruct (fs !! p) as [[|l]|] eqn:E; simpl; by rewrite ?E.
Qed.

(** What the code of [save_failed_game] computes. *)
Lemma save_failed_game_run p g d dv gd et em fs :
  save_failed_game p g d dv gd et em fs
  = (Ok tt,
     <[p := Json (saved_ledger g (isoformat d) dv gd et em (ledger_at fs p))]>
       fs).
Proof.
  unfold save_failed_game, saved_ledger.
  generalize (isoformat d) as dk. intros dk.
  erewrite bind_run by reflexivity.
  erewrite bind_run by apply load_or_empty.
  erewrite bind_run by apply getitem_setdefault.
  erewrite bind_run by apply getitem_setdefault.
  by rewrite !dict_set_setdefault.
Qed.

(** What the code of [mark_game_as_retried] computes: nothing is written
    unless the file parses and holds the date and, under it, the game. *)
Lemma mark_game_as_retried_run p g d dv gd success fs :
  mark_game_as_retried p g d dv gd success fs
  = (Ok tt,
     match fs !! p with
     | Some (Json l) =>
         match dict_get (isoformat d) l with
         | Some games =>
             match dict_get g games with
             | Some _ =>
                 <[p := Json (marked_ledger g (isoformat d) dv gd success l)]> fs
             | None => fs
             end
         | None => fs
         end
     | _ => fs
     end).
Proof.
  unfold mark_game_as_retried, marked_ledger.
  generalize (isoformat d) as dk. intros dk.
  erewrite bind_run by reflexivity.
  destruct (fs !! p) as [[|l]|] eqn:Ep.
  - rewrite bool_decide_true by eauto. cbn [negb].
    erewrite try_except_raise; [done|].
    apply bind_raise. unfold json_load. by rewrite Ep.
  - rewrite bool_decide_true by eauto. cbn [negb].
    assert (Hload : json_load p fs = (Ok l, fs)).
    { unfold json_load. by rewrite Ep. }
    unfold dict_mem.
    destruct (dict_get dk l) as [games|] eqn:Edk.
    + destruct (dict_get g games) as [entries|] eqn:Eg.
      * erewrite try_except_ok; [done|].
        erewrite bind_run by exact Hload. rewrite Edk. cbn [negb].
        unfold getitem at 1. rewrite Edk.
        erewrite bind_run by reflexivity. rewrite Eg. cbn [negb].
        unfold getitem at 1. rewrite Eg.
        erewrite bind_run by reflexivity.
        rewrite dict_get_set_eq. unfold json_dump.
        by destruct (retry_in_games g dv gd success entries games).
      * erewrite try_except_ok; [done|].
        erewrite bind_run by exact Hload. rewrite Edk. cbn [negb].
        unfold getitem at 1. rewrite Edk.
        erewrite bind_run by reflexivity. by rewrite Eg.
    + erewrite try_except_ok; [done|].
      erewrite bind_run by exact Hload. by rewrite Edk.
  - by rewrite bool_decide_false by (by intros [? ?]).
Qed.

Lemma ledger_at_saved p g d dv gd et em fs :
  ledger_at (save_failed_game p g d dv gd et em fs).2 p
  = saved_ledger g (isoformat d) dv gd et em (ledger_at fs p).
Proof.
  rewrite save_failed_game_run. unfold ledger_at at 1. cbn [snd].
  by rewrite lookup_insert_eq.
Qed.

Lemma ledger_at_marked p g d dv gd success fs :
  ledger_at (mark_game_as_retried p g d dv gd success fs).2 p
  = marked_ledger g (isoformat d) dv gd success (ledger_at fs p).
Proof.
  rewrite mark_game_as_retried_run. unfold ledger_at, marked_ledger.
  cbn [snd]. generalize (isoformat d) as dk. intros dk.
  destruct (fs !! p) as [[|l]|] eqn:Ep; rewrite ?Ep; try done.
  destruct (dict_get dk l) as [games|] eqn:Edk; rewrite ?Ep; try done.
  destruct (dict_get g games) as [entries|] eqn:Eg; rewrite ?Ep; try done.
  by rewrite lookup_insert_eq.
Qed.

(** *** The record lists after an operation *)

Lemma entries_of_saved_eq g dk dv gd et em l :
  entries_of (saved_ledger g dk dv gd et em l) dk g
  = add_or_update dv gd et em (entries_of l dk g).
Proof.
  unfold saved_ledger, entries_of.
  rewrite dict_get_set_eq. simpl. rewrite dict_get_set_eq. simpl.
  by destruct (dict_get dk l).
Qed.

Lemma entries_of_saved_ne g dk dv gd et em l dk' g' :
  (dk', g') ≠ (dk, g) ->
  entries_of (saved_ledger g dk dv gd et em l) dk' g' = entries_of l dk' g'.
Proof.
  intros Hne. unfold saved_ledger, entries_of.
  destruct (decide (dk = dk')) as [<-|Hdk].
  - rewrite dict_get_set_eq. simpl.
    rewrite dict_get_set_ne by congruence.
    by destruct (dict_get dk l).
  - by rewrite dict_get_set_ne.
Qed.

(** Lines 196-198: a date left without games is dropped. *)
Lemma entries_of_prune dk g (games : pydict bucket) l :
  entries_of
    match games with
    | [] => dict_del dk (dict_set dk games l)
    | _ :: _ => dict_set dk games l
    end dk g
  = default [] (dict_get g games).
Proof.
  unfold entries_of. destruct games as [|x xs].
  - by rewrite dict_get_del_eq.
  - by rewrite dict_get_set_eq.
Qed.

Lemma entries_of_prune_ne dk dk' g (games : pydict bucket) l :
  dk ≠ dk' ->
  entries_of
    match games with
    | [] => dict_del dk (dict_set dk games l)
    | _ :: _ => dict_set dk games l
    end dk' g
  = entries_of l dk' g.
Proof.
  intros Hne. unfold entries_of. destruct games as [|x xs].
  - by rewrite dict_get_del_ne, dict_get_set_ne.
  - by rewrite dict_get_set_ne.
Qed.

(** Lines 183-194 on the record list itself. *)
Lemma entries_of_marked_eq g dk dv gd success l :
  entries_of (marked_ledger g dk dv gd success l) dk g
  = match find (matches dv gd) (entries_of l dk g) with
    | Some _ =>
        if success then remove_first (matches dv gd) (entries_of l dk g)
        else update_first (matches dv gd) bump_retry (entries_of l dk g)
    | None => entries_of l dk g
    end.
Proof.
  unfold marked_ledger.
  destruct (dict_get dk l) as [games|] eqn:Edk.
  2: { unfold entries_of. rewrite Edk. done. }
  destruct (dict_get g games) as [entries|] eqn:Eg.
  2: { unfold entries_of. rewrite Edk. simpl. rewrite Eg. done. }
  assert (He : entries_of l dk g = entries).
  { unfold entries_of. rewrite Edk. simpl. by rewrite Eg. }
  rewrite He, entries_of_prune. unfold retry_in_games.
  destruct (find (matches dv gd) entries) as [e|]; [|by rewrite Eg].
  destruct success; [|by rewrite dict_get_set_eq].
  destruct (remove_first (matches dv gd) entries) as [|e' es'].
  - by rewrite dict_get_del_eq.
  - by rewrite dict_get_set_eq.
Qed.

Lemma entries_of_marked_ne g dk dv gd success l dk' g' :
  (dk', g') ≠ (dk, g) ->
  entries_of (marked_ledger g dk dv gd success l) dk' g'
  = entries_of l dk' g'.
Proof.
  intros Hne. unfold marked_ledger.
  destruct (dict_get dk l) as [games|] eqn:Edk; [|done].
  destruct (dict_get g games) as [entries|] eqn:Eg; [|done].
  destruct (decide (dk = dk')) as [<-|Hdk]; [|by apply entries_of_prune_ne].
  assert (Hg : g ≠ g') by congruence.
  rewrite entries_of_prune. unfold entries_of. rewrite Edk. simpl.
  f_equal. unfold retry_in_games.
  destruct (find (matches dv gd) entries); [|done].
  destruct success.
  - destruct (remove_first (matches dv gd) entries).
    + by apply dict_get_del_ne.
    + by apply dict_get_set_ne.
  - by apply dict_get_set_ne.
Qed.

(** *** The records of a key after an operation *)

Lemma add_or_update_filter_eq dv gd et em (es : bucket) :
  filter (fun e => matches dv gd e = true) (add_or_update dv gd et em es)
  = match filter (fun e => matches dv gd e = true) es with
    | [] => [new_entry dv gd et em]
    | e :: r => overwrite_error et em e :: r
    end.
Proof.
  unfold add_or_update. rewrite find_filter.
  destruct (filter (fun e => matches dv gd e = true) es) as [|e r] eqn:E;
    simpl.
  - rewrite list.filter_app, E. simpl. rewrite filter_cons.
    rewrite decide_True; [done|].
    apply matches_entry_key. done.
  - rewrite filter_update_first by done. by rewrite E.
Qed.

Lemma add_or_update_filter_ne dv gd et em dv' gd' (es : bucket) :
  (dv', gd') ≠ (dv, gd) ->
  length (filter (fun e => matches dv' gd' e = true)
            (add_or_update dv gd et em es))
  = length (filter (fun e => matches dv' gd' e = true) es).
Proof.
  intros Hne. unfold add_or_update.
  destruct (find (matches dv gd) es).
  - by apply filter_update_first_length.
  - rewrite list.filter_app, length_app. simpl. rewrite filter_cons.
    rewrite decide_False; [simpl; lia|].
    rewrite matches_entry_key. simpl. intros [-> ->]. done.
Qed.

Lemma add_or_update_at_most_one dv gd et em (es : bucket) :
  (forall dv' gd',
     length (filter (fun e => matches dv' gd' e = true) es) <= 1) ->
  forall dv' gd',
    length (filter (fun e => matches dv' gd' e = true)
              (add_or_update dv gd et em es)) <= 1.
Proof.
  intros H dv' gd'.
  destruct (decide ((dv', gd') = (dv, gd))) as [[= -> ->]|Hne].
  - rewrite add_or_update_filter_eq. specialize (H dv gd).
    destruct (filter _ es); simpl in *; lia.
  - by rewrite add_or_update_filter_ne.
Qed.

Lemma saved_ledger_at_most_one g dk dv gd et em l :
  at_most_one l -> at_most_one (saved_ledger g dk dv gd et em l).
Proof.
  intros H dk' g' dv' gd'. unfold records_for.
  destruct (decide ((dk', g') = (dk, g))) as [[= -> ->]|Hne].
  - rewrite entries_of_saved_eq. apply add_or_update_at_most_one.
    intros dv0 gd0. apply (H dk g dv0 gd0).
  - rewrite entries_of_saved_ne by done. apply H.
Qed.

(** A retry mark keeps the invariant too, so every ledger that the two
    operations build from an empty file has it. *)
Lemma marked_ledger_at_most_one g dk dv gd success l :
  at_most_one l -> at_most_one (marked_ledger g dk dv gd success l).
Proof.
  intros H dk' g' dv' gd'. unfold records_for.
  destruct (decide ((dk', g') = (dk, g))) as [[= -> ->]|Hne].
  - rewrite entries_of_marked_eq. specialize (H dk g dv' gd').
    unfold records_for in H.
    destruct (find (matches dv gd) (entries_of l dk g)); [|done].
    destruct success.
    + etrans; [apply filter_remove_first_length | done].
    + by rewrite filter_update_first_length.
  - rewrite entries_of_marked_ne by done. apply H.
Qed.

Lemma filter_matches_NoDup (es : bucket) dv gd :
  NoDup (entry_key <$> es) ->
  length (filter (fun e => matches dv gd e = true) es) <= 1.
Proof.
  induction es as [|e es IH]; simpl; [lia|].
  intros [Hnotin Hnd]%list.NoDup_cons. specialize (IH Hnd).
  rewrite filter_cons. destruct (decide (matches dv gd e = true)) as [He|];
    [|exact IH].
  simpl. replace (filter (fun e0 => matches dv gd e0 = true) es) with
    (@nil entry); [done|].
  symmetry. apply filter_none. apply list.Forall_forall. intros e' Hin.
  destruct (matches dv gd e') eqn:He'; [|done].
  exfalso. apply Hnotin. apply list_elem_of_fmap. exists e'. split; [|done].
  apply matches_entry_key in He as [? ?], He' as [? ?].
  unfold entry_key. congruence.
Qed.

(** A check of the invariant that computes. *)
Lemma at_most_one_intro l :
  Forall (fun dg => Forall (fun ge => NoDup (entry_key <$> ge.2)) dg.2) l ->
  at_most_one l.
Proof.
  intros H dk g dv gd. unfold records_for, entries_of.
  destruct (dict_get dk l) as [games|] eqn:Edk; simpl; [|lia].
  apply dict_get_Some_elem in Edk.
  rewrite list.Forall_forall in H. specialize (H _ Edk). simpl in H.
  destruct (dict_get g games) as [es|] eqn:Eg; simpl; [|lia].
  apply dict_get_Some_elem in Eg.
  rewrite list.Forall_forall in H. specialize (H _ Eg). simpl in H.
  by apply filter_matches_NoDup.
Qed.

(** **** C1 *)

(** C1: a save on a ledger with at most one record per
    (date, game, division, gender) returns normally and writes a ledger with
    at most one record per such key; a record of the bucket matching
    (division, gender) has its error fields overwritten in place and keeps
    its retry count (0 if it had none); with no matching record, a record
    with retry count 0 is appended; the other buckets are as they were. *)
Theorem save_failed_game_at_most_one p g d dv gd et em fs :
  at_most_one (ledger_at fs p) ->
  exists l',
    save_failed_game p g d dv gd et em fs = (Ok tt, <[p := Json l']> fs)
    /\ at_most_one l'
    /\ (forall pre e post,
          entries_of (ledger_at fs p) (isoformat d) g = pre ++ e :: post ->
          Forall (fun x => matches dv gd x = false) pre ->
          matches dv gd e = true ->
          entries_of l' (isoformat d) g
          = pre ++ {| division := division e; gender := gender e;
                      error_type := et; error_message := em;
                      retry_count := Some (default 0%Z (retry_count e)) |}
                :: post)
    /\ (Forall (fun x => matches dv gd x = false)
           (entries_of (ledger_at fs p) (isoformat d) g) ->
        entries_of l' (isoformat d) g
        = entries_of (ledger_at fs p) (isoformat d) g
          ++ [{| division := dv; gender := gd;
                 error_type := et; error_message := em;
                 retry_count := Some 0%Z |}])
    /\ (forall dk' g',
          (dk', g') ≠ (isoformat d, g) ->
          entries_of l' dk' g' = entries_of (ledger_at fs p) dk' g').
Proof.
  intros Hinv. eexists. split; [apply save_failed_game_run|].
  split; [by apply saved_ledger_at_most_one|].
  split; [|split].
  - intros pre e post Hsplit Hpre He.
    rewrite entries_of_saved_eq, Hsplit. unfold add_or_update.
    rewrite find_at_first by done.
    by rewrite update_first_at.
  - intros Hnone. rewrite entries_of_saved_eq. unfold add_or_update.
    apply find_none_forall in Hnone. by rewrite Hnone.
  - intros dk' g' Hne. by apply entries_of_saved_ne.
Qed.

Lemma ledger_example_at_most_one : at_most_one ledger_example.
Proof.
  apply at_most_one_intro. unfold ledger_example.
  repeat (apply List.Forall_cons || apply List.Forall_nil). simpl.
  by apply (bool_decide_unpack _).
Qed.

Lemma save_failed_game_at_most_one_witness :
  exists l',
    save_failed_game "failed.json" "g1" (mkDate 2025 1 12) "d1" "men"
      "exception" "boom" {["failed.json" := Json ledger_example]}
    = (Ok tt,
       <["failed.json" := Json l']> {["failed.json" := Json ledger_example]})
    /\ at_most_one l'.
Proof.
  destruct (save_failed_game_at_most_one "failed.json" "g1"
              (mkDate 2025 1 12) "d1" "men" "exception" "boom"
              {["failed.json" := Json ledger_example]})
    as (l' & Hrun & Hinv & _).
  - unfold ledger_at. rewrite lookup_singleton_eq.
    exact ledger_example_at_most_one.
  - exists l'. split; [exact Hrun | exact Hinv].
Defined.

(** **** C8 *)

(** C8: [load_failed_games] returns normally on every file system, path and
    optional date, and leaves the file system as it is: for a file that
    parses it returns the whole ledger, or with a target date the one-entry
    dictionary of that date's games (no games if the date is missing); for
    a missing or unparsable file it returns the empty dictionary. *)
Theorem load_failed_games_never_raises p (target_date : option date) fs :
  load_failed_games p target_date fs
  = (Ok match fs !! p with
        | Some (Json l) =>
            match target_date with
            | Some d =>
                [(isoformat d, default [] (dict_get (isoformat d) l))]
            | None => l
            end
        | _ => []
        end,
     fs).
Proof.
  unfold load_failed_games.
  erewrite bind_run by reflexivity.
  destruct (fs !! p) as [[|l]|] eqn:Ep.
  - rewrite bool_decide_true by eauto. cbn [negb].
    erewrite try_except_raise; [done|].
    apply bind_raise. unfold json_load. by rewrite Ep.
  - rewrite bool_decide_true by eauto. cbn [negb].
    erewrite try_except_ok; [done|].
    erewrite bind_run by (unfold json_load; by rewrite Ep).
    by destruct target_date.
  - by rewrite bool_decide_false by (by intros [? ?]).
Qed.

(** **** C9 *)

(** C9: when the ledger file does not exist, [mark_game_as_retried] returns
    normally and leaves the whole file system as it was; in particular the
    file still does not exist. *)
Theorem mark_game_as_retried_missing_file p g d dv gd success fs :
  fs !! p = None ->
  mark_game_as_retried p g d dv gd success fs = (Ok tt, fs)
  /\ (mark_game_as_retried p g d dv gd success fs).2 !! p = None.
Proof.
  intros Hp. rewrite mark_game_as_retried_run, Hp. done.
Qed.

Lemma mark_game_as_retried_missing_file_witness :
  mark_game_as_retried "failed.json" "g1" (mkDate 2025 1 12) "d1" "men" true
    {["other.json" := Json ledger_example]}
  = (Ok tt, {["other.json" := Json ledger_example]})
  /\ (mark_game_as_retried "failed.json" "g1" (mkDate 2025 1 12) "d1" "men"
        true {["other.json" := Json ledger_example]}).2 !! "failed.json"
     = None.
Proof.
  apply (mark_game_as_retried_missing_file "failed.json" "g1"
           (mkDate 2025 1 12) "d1" "men" true
           {["other.json" := Json ledger_example]}).
  by apply lookup_singleton_ne.
Defined.

(** *** Queries *)

Lemma elem_of_matching_games dv gd g (games : pydict bucket) :
  g ∈ matching_games dv gd games ->
  exists es, (g, es) ∈ games /\ existsb (matches dv gd) es = true.
Proof.
  induction games as [|[g0 es0] games IH]; simpl.
  - by intros ?%elem_of_nil.
  - destruct (existsb (matches dv gd) es0) eqn:E.
    + intros [->|Hin]%elem_of_cons.
      * exists es0. split; [left | done].
      * destruct (IH Hin) as (es & ? & ?). exists es. split; [by right|done].
    + intros Hin. destruct (IH Hin) as (es & ? & ?).
      exists es. split; [by right|done].
Qed.

Lemma ledger_wf_games l dk games :
  ledger_wf l -> dict_get dk l = Some games -> dict_wf games.
Proof.
  intros [_ H] Hget. apply dict_get_Some_elem in Hget.
  rewrite list.Forall_forall in H. apply (H _ Hget).
Qed.

(** **** C3 *)

(** C3: on a ledger file holding a record for (date, game, division, gender)
    ([e], the first match of the game's list [pre ++ e :: post]), a
    successful retry returns normally and writes the ledger in which that
    record is deleted from the list, the game is deleted from the date if
    the list became empty, and the date is deleted if it then has no games;
    a query of the written ledger for the same date, division and gender
    does not return the game. *)
Theorem mark_game_as_retried_success_deletes
    p g d dv gd fs l games pre e post :
  fs !! p = Some (Json l) ->
  ledger_wf l ->
  at_most_one l ->
  dict_get (isoformat d) l = Some games ->
  dict_get g games = Some (pre ++ e :: post) ->
  Forall (fun x => matches dv gd x = false) pre ->
  matches dv gd e = true ->
  let games' :=
    match pre ++ post with
    | [] => dict_del g games
    | _ :: _ => dict_set g (pre ++ post) games
    end in
  let l' :=
    match games' with
    | [] => dict_del (isoformat d) l
    | _ :: _ => dict_set (isoformat d) games' l
    end in
  mark_game_as_retried p g d dv gd true fs = (Ok tt, <[p := Json l']> fs)
  /\ g ∉ get_failed_games_for_division_gender l' d dv gd.
Proof.
  intros Hp Hwf Hinv Hdk Hg Hpre He games' l'.
  assert (Hgames' :
    retry_in_games g dv gd true (pre ++ e :: post) games = games').
  { unfold retry_in_games. rewrite find_at_first by done.
    by rewrite remove_first_at. }
  assert (Hl' : marked_ledger g (isoformat d) dv gd true l = l').
  { unfold marked_ledger. rewrite Hdk, Hg, Hgames'. unfold l'.
    destruct games'; [apply dict_del_set | done]. }
  split.
  { rewrite mark_game_as_retried_run, Hp, Hdk, Hg. by rewrite Hl'. }
  unfold get_failed_games_for_division_gender.
  intros (es & Hin & Hex)%elem_of_matching_games.
  assert (Hpost : Forall (fun x => matches dv gd x = false) post).
  { specialize (Hinv (isoformat d) g dv gd).
    unfold records_for, entries_of in Hinv. rewrite Hdk in Hinv.
    simpl in Hinv. rewrite Hg in Hinv. simpl in Hinv.
    rewrite list.filter_app, filter_none, filter_cons in Hinv by done.
    rewrite decide_True in Hinv by done. simpl in Hinv.
    apply filter_nil_forall.
    destruct (filter (fun y => matches dv gd y = true) post); [done|].
    simpl in Hinv. lia. }
  assert (Hwfg : dict_wf games) by eauto using ledger_wf_games.
  unfold l' in Hin. destruct games' as [|x xs] eqn:Egames'.
  { rewrite dict_get_del_eq in Hin. by apply elem_of_nil in Hin. }
  rewrite dict_get_set_eq in Hin. simpl in Hin. rewrite <- Egames' in Hin.
  unfold games' in Hin. destruct (pre ++ post) as [|y ys] eqn:Epp.
  { by apply dict_del_not_elem in Hin. }
  apply dict_elem_get in Hin.
  2: { apply dict_wf_set_mem; [by rewrite Hg | done]. }
  rewrite dict_get_set_eq in Hin. injection Hin as <-.
  assert (Hnone : existsb (matches dv gd) (pre ++ post) = false).
  { apply existsb_false_forall. by apply list.Forall_app. }
  rewrite Epp in Hnone. congruence.
Qed.

Lemma ledger_example_wf : ledger_wf ledger_example.
Proof.
  split.
  - by apply (bool_decide_unpack _).
  - repeat (apply List.Forall_cons || apply List.Forall_nil).
    by apply (bool_decide_unpack _).
Qed.

Lemma mark_game_as_retried_success_deletes_witness :
  mark_game_as_retried "failed.json" "g1" (mkDate 2025 1 12) "d1" "men" true
    {["failed.json" := Json ledger_example]}
  = (Ok tt,
     <["failed.json" :=
         Json [("2025-01-12",
                [("g1", [{| division := "d2"; gender := "men";
                            error_type := "timeout"; error_message := "";
                            retry_count := Some 2%Z |}])])]]>
       {["failed.json" := Json ledger_example]})
  /\ "g1" ∉ get_failed_games_for_division_gender
              [("2025-01-12",
                [("g1", [{| division := "d2"; gender := "men";
                            error_type := "timeout"; error_message := "";
                            retry_count := Some 2%Z |}])])]
              (mkDate 2025 1 12) "d1" "men".
Proof.
  apply (mark_game_as_retried_success_deletes
           "failed.json" "g1" (mkDate 2025 1 12) "d1" "men"
           {["failed.json" := Json ledger_example]} ledger_example
           [("g1", [{| division := "d1"; gender := "men";
                       error_type := "timeout"; error_message := "";
                       retry_count := None |};
                    {| division := "d2"; gender := "men";
                       error_type := "timeout"; error_message := "";
                       retry_count := Some 2%Z |}])]
           []
           {| division := "d1"; gender := "men"; error_type := "timeout";
              error_message := ""; retry_count := None |}
           [{| division := "d2"; gender := "men"; error_type := "timeout";
               error_message := ""; retry_count := Some 2%Z |}]).
  - apply lookup_singleton_eq.
  - exact ledger_example_wf.
  - exact ledger_example_at_most_one.
  - reflexivity.
  - reflexivity.
  - constructor.
  - reflexivity.
Defined.

(** *** Sequences of calls for one key *)

Lemma records_for_saved g dk dv gd et em l :
  records_for (saved_ledger g dk dv gd et em l) dk g dv gd
  = match records_for l dk g dv gd with
    | [] => [new_entry dv gd et em]
    | e :: r => overwrite_error et em e :: r
    end.
Proof.
  unfold records_for. rewrite entries_of_saved_eq.
  apply add_or_update_filter_eq.
Qed.

Lemma records_for_marked g dk dv gd success l :
  records_for (marked_ledger g dk dv gd success l) dk g dv gd
  = match records_for l dk g dv gd with
    | [] => []
    | e :: r => if success then r else bump_retry e :: r
    end.
Proof.
  unfold records_for. rewrite entries_of_marked_eq, find_filter.
  destruct (filter (fun e => matches dv gd e = true) (entries_of l dk g))
    as [|e r] eqn:E; simpl; [done|].
  destruct success.
  - by rewrite filter_remove_first, E.
  - rewrite filter_update_first by done. by rewrite E.
Qed.

Lemma run_op_ok p g d dv gd o fs : (run_op p g d dv gd o fs).1 = Ok tt.
Proof.
  destruct o; simpl.
  - by rewrite save_failed_game_run.
  - by rewrite mark_game_as_retried_run.
Qed.

Lemma run_ops_ok p g d dv gd ops fs : (run_ops p g d dv gd ops fs).1 = Ok tt.
Proof.
  revert fs. induction ops as [|o ops IH]; intros fs; simpl; [done|].
  unfold bind. pose proof (run_op_ok p g d dv gd o fs) as Ho.
  destruct (run_op p g d dv gd o fs) as [r fs1]. simpl in Ho. subst r.
  apply IH.
Qed.

Lemma run_ops_app p g d dv gd ops1 ops2 fs :
  run_ops p g d dv gd (ops1 ++ ops2) fs
  = run_ops p g d dv gd ops2 (run_ops p g d dv gd ops1 fs).2.
Proof.
  revert fs. induction ops1 as [|o ops1 IH]; intros fs; simpl; [done|].
  unfold bind. pose proof (run_op_ok p g d dv gd o fs) as Ho.
  destruct (run_op p g d dv gd o fs) as [r fs1]. simpl in Ho. subst r.
  apply IH.
Qed.

Lemma records_after_snoc p g d dv gd ops o fs :
  records_after p g d dv gd (ops ++ [o]) fs
  = match o, records_after p g d dv gd ops fs with
    | Save et em, [] => [new_entry dv gd et em]
    | Save et em, e :: r => overwrite_error et em e :: r
    | Retried _, [] => []
    | Retried true, e :: r => r
    | Retried false, e :: r => bump_retry e :: r
    end.
Proof.
  unfold records_after. rewrite run_ops_app. simpl. unfold bind.
  pose proof (run_op_ok p g d dv gd o (run_ops p g d dv gd ops fs).2) as Ho.
  destruct (run_op p g d dv gd o _) as [r fs1] eqn:Erun.
  simpl in Ho. subst r. simpl.
  replace fs1 with (run_op p g d dv gd o (run_ops p g d dv gd ops fs).2).2
    by (by rewrite Erun).
  destruct o as [et em|success]; simpl.
  - by rewrite ledger_at_saved, records_for_saved.
  - rewrite ledger_at_marked, records_for_marked.
    by destruct success.
Qed.

Lemma after_last_success_snoc ops o :
  after_last_success (ops ++ [o])
  = if is_success o then [] else after_last_success ops ++ [o].
Proof.
  induction ops as [|o' ops IH]; simpl.
  - by destruct (is_success o).
  - rewrite existsb_app. simpl. rewrite orb_false_r, IH.
    destruct (is_success o) eqn:Eo.
    + by rewrite orb_true_r.
    + rewrite orb_false_r.
      destruct (existsb is_success ops); [done|].
      by destruct (is_success o').
Qed.

Lemma from_first_save_snoc ops o :
  from_first_save (ops ++ [o])
  = match from_first_save ops with
    | [] => if is_save o then [o] else []
    | _ :: _ => from_first_save ops ++ [o]
    end.
Proof.
  induction ops as [|o' ops IH]; simpl; [done|].
  by destruct (is_save o').
Qed.

Lemma last_save_snoc ops o :
  last_save (ops ++ [o])
  = match o with
    | Save et em => Some (et, em)
    | Retried _ => last_save ops
    end.
Proof.
  induction ops as [|o' ops IH]; simpl.
  - by destruct o.
  - rewrite IH. by destruct o.
Qed.

Lemma failed_retries_snoc ops o :
  failed_retries (ops ++ [o])
  = (failed_retries ops + if is_failure o then 1 else 0)%Z.
Proof.
  unfold failed_retries. rewrite list.filter_app, length_app, filter_cons.
  destruct (is_failure o).
  - rewrite decide_True by done. simpl. lia.
  - rewrite decide_False by done. simpl. lia.
Qed.

Lemma last_save_from_first_save ops :
  last_save (from_first_save ops) = last_save ops.
Proof.
  induction ops as [|o ops IH]; simpl; [done|].
  destruct o as [et em|success]; simpl; [done|].
  rewrite IH. by destruct (last_save ops).
Qed.

Lemma last_save_none_nil ops :
  last_save (from_first_save ops) = None -> from_first_save ops = [].
Proof.
  induction ops as [|o ops IH]; simpl; [done|].
  destruct o as [et em|success]; simpl; [|done].
  by destruct (last_save ops).
Qed.

Lemma last_save_live ops x :
  last_save (live_ops ops) = Some x -> last_save ops = Some x.
Proof.
  unfold live_ops. rewrite last_save_from_first_save.
  induction ops as [|o ops IH] using rev_ind; [done|].
  rewrite after_last_success_snoc, last_save_snoc.
  destruct o as [et em|[|]]; simpl; [|done|].
  - by rewrite last_save_snoc.
  - by rewrite last_save_snoc.
Qed.

(** The records of the key after a sequence of calls, from a ledger that
    has none for it. *)
Lemma records_after_live p g d dv gd ops fs :
  records_for (ledger_at fs p) (isoformat d) g dv gd = [] ->
  records_after p g d dv gd ops fs
  = match last_save (live_ops ops) with
    | Some (et, em) =>
        [{| division := dv; gender := gd; error_type := et;
            error_message := em;
            retry_count := Some (failed_retries (live_ops ops)) |}]
    | None => []
    end.
Proof.
  intros Hfresh. induction ops as [|o ops IH] using rev_ind.
  { done. }
  rewrite records_after_snoc, IH. clear IH. unfold live_ops.
  rewrite after_last_success_snoc. fold (live_ops ops).
  destruct o as [et em|[|]]; cbn [is_success is_save].
  - rewrite from_first_save_snoc. fold (live_ops ops). cbn [is_save].
    destruct (last_save (live_ops ops)) as [[et0 em0]|] eqn:El.
    + destruct (live_ops ops) as [|o' live] eqn:Elive; [done|].
      rewrite last_save_snoc, failed_retries_snoc. simpl.
      unfold overwrite_error. simpl. by rewrite Z.add_0_r.
    + apply last_save_none_nil in El. fold (live_ops ops) in El.
      by rewrite El.
  - by destruct (last_save (live_ops ops)) as [[et0 em0]|].
  - rewrite from_first_save_snoc. fold (live_ops ops). cbn [is_save].
    destruct (last_save (live_ops ops)) as [[et0 em0]|] eqn:El.
    + destruct (live_ops ops) as [|o' live] eqn:Elive; [done|].
      rewrite last_save_snoc, failed_retries_snoc, El. done.
    + apply last_save_none_nil in El. fold (live_ops ops) in El.
      by rewrite El.
Qed.

(** **** C2 *)

(** C2 as the claim has it fails: after a save and a successful retry the
    key has no record, not exactly one; and after a save, a successful
    retry, a failed retry (which finds no record) and a second save, the
    record has retry count 0 although one failed retry came after the last
    successful one. *)
Lemma retried_success_leaves_no_record :
  records_after "failed.json" "g1" (mkDate 2025 1 12) "d1" "men"
    [Save "timeout" ""; Retried true] ∅ = []
  /\ records_after "failed.json" "g1" (mkDate 2025 1 12) "d1" "men"
       [Save "timeout" ""; Retried true; Retried false; Save "timeout" ""] ∅
     = [{| division := "d1"; gender := "men"; error_type := "timeout";
           error_message := ""; retry_count := Some 0%Z |}]
  /\ failed_retries
       (after_last_success
          [Save "timeout" ""; Retried true; Retried false; Save "timeout" ""])
     = 1%Z.
Proof.
  split; [|split].
  - by rewrite records_after_live.
  - by rewrite records_after_live.
  - reflexivity.
Qed.

(** C2, amended: run any sequence of saves and retry marks for one key on a
    ledger file with no record for the key. Every call returns normally.
    Let the live calls be those from the first save after the last
    successful retry. With no live call the key ends with no record.
    Otherwise it ends with exactly one record, whose error fields are those
    of the last save and whose retry count is the number of failed retries
    among the live calls. And on any ledger, a failed retry of an existing
    record raises its retry count by exactly 1, a missing count being 0,
    and leaves the rest of the list as it was. *)
Theorem retry_count_counts_live_failures p g d dv gd ops fs :
  records_for (ledger_at fs p) (isoformat d) g dv gd = [] ->
  (run_ops p g d dv gd ops fs).1 = Ok tt
  /\ (live_ops ops = [] -> records_after p g d dv gd ops fs = [])
  /\ (live_ops ops ≠ [] ->
      exists et em,
        last_save ops = Some (et, em)
        /\ records_after p g d dv gd ops fs
           = [{| division := dv; gender := gd; error_type := et;
                 error_message := em;
                 retry_count := Some (failed_retries (live_ops ops)) |}])
  /\ (forall fs1 pre e post,
        entries_of (ledger_at fs1 p) (isoformat d) g = pre ++ e :: post ->
        Forall (fun x => matches dv gd x = false) pre ->
        matches dv gd e = true ->
        entries_of
          (ledger_at (mark_game_as_retried p g d dv gd false fs1).2 p)
          (isoformat d) g
        = pre ++ {| division := division e; gender := gender e;
                    error_type := error_type e;
                    error_message := error_message e;
                    retry_count :=
                      Some (default 0 (retry_count e) + 1)%Z |}
              :: post).
Proof.
  intros Hfresh. split; [apply run_ops_ok|].
  pose proof (records_after_live p g d dv gd ops fs Hfresh) as Hrec.
  split; [|split].
  - intros Hlive. rewrite Hrec, Hlive. done.
  - intros Hlive.
    destruct (last_save (live_ops ops)) as [[et em]|] eqn:El.
    + exists et, em. split; [by apply last_save_live | done].
    + apply last_save_none_nil in El. done.
  - intros fs1 pre e post Hsplit Hpre He.
    rewrite ledger_at_marked, entries_of_marked_eq, Hsplit.
    rewrite find_at_first by done. by rewrite update_first_at.
Qed.

Lemma retry_count_counts_live_failures_witness :
  (run_ops "failed.json" "g1" (mkDate 2025 1 12) "d1" "men"
     [Save "timeout" ""; Retried true; Retried false; Save "timeout" "";
      Retried false; Retried false; Save "exception" "boom"] ∅).1 = Ok tt
  /\ exists et em,
       last_save
         [Save "timeout" ""; Retried true; Retried false; Save "timeout" "";
          Retried false; Retried false; Save "exception" "boom"]
       = Some (et, em)
       /\ records_after "failed.json" "g1" (mkDate 2025 1 12) "d1" "men"
            [Save "timeout" ""; Retried true; Retried false;
             Save "timeout" ""; Retried false; Retried false;
             Save "exception" "boom"] ∅
          = [{| division := "d1"; gender := "men"; error_type := et;
                error_message := em; retry_count := Some 2%Z |}].
Proof.
  destruct (retry_count_counts_live_failures
              "failed.json" "g1" (mkDate 2025 1 12) "d1" "men"
              [Save "timeout" ""; Retried true; Retried false;
               Save "timeout" ""; Retried false; Retried false;
               Save "exception" "boom"] ∅)
    as (Hok & _ & Hlive & _).
  - reflexivity.
  - split; [exact Hok|]. apply Hlive. discriminate.
Defined.
End FailedGamesFacts.

(** ** The CSV reconciliation engine *)

Section CSVHandlerFacts.
Import CSVHandler.
Implicit Types (fs : filesys) (df : DataFrame) (p c : string).
Implicit Types (cols : list string) (r : list cell).

Lemma read_csv_safely_run p fs :
  read_csv_safely p fs
  = (Ok match fs !! p with
        | Some (Table df) => Some df
        | _ => None
        end,
     fs).
Proof.
  unfold read_csv_safely.
  destruct (fs !! p) as [[|df]|] eqn:Ep.
  - erewrite try_except_raise; [done|].
    erewrite bind_run by reflexivity. rewrite Ep.
    rewrite bool_decide_true by eauto. cbn [negb].
    apply bind_raise. unfold pd_read_csv. by rewrite Ep.
  - erewrite try_except_ok; [done|].
    erewrite bind_run by reflexivity. rewrite Ep.
    rewrite bool_decide_true by eauto. cbn [negb].
    erewrite bind_run by (unfold pd_read_csv; by rewrite Ep). done.
  - erewrite try_except_ok; [done|].
    erewrite bind_run by reflexivity. rewrite Ep.
    by rewrite bool_decide_false by (by intros [? ?]).
Qed.

Lemma has_column_true c df : has_column c df = true <-> c ∈ columns df.
Proof. unfold has_column. apply bool_decide_eq_true. Qed.

Lemma has_column_false c df : has_column c df = false <-> c ∉ columns df.
Proof. unfold has_column. apply bool_decide_eq_false. Qed.

Lemma col_index_lookup c cols i :
  col_index c cols = Some i -> cols !! i = Some c.
Proof.
  revert i. induction cols as [|c' cols IH]; intros i; simpl; [done|].
  destruct (String.eqb_spec c c') as [->|].
  - by intros [= <-].
  - destruct (col_index c cols) as [j|]; simpl; [|done].
    intros [= <-]. by apply IH.
Qed.

Lemma col_index_elem c cols : c ∈ cols -> is_Some (col_index c cols).
Proof.
  induction cols as [|c' cols IH]; simpl.
  - by intros ?%elem_of_nil.
  - destruct (String.eqb_spec c c') as [->|]; [by eexists|].
    intros [?|Hin]%elem_of_cons; [done|].
    destruct (IH Hin) as [j ->]. by eexists.
Qed.

Lemma col_index_app_l c cols cols' :
  c ∈ cols -> col_index c (cols ++ cols') = col_index c cols.
Proof.
  induction cols as [|c' cols IH]; simpl.
  - by intros ?%elem_of_nil.
  - destruct (String.eqb_spec c c') as [->|]; [done|].
    intros [?|Hin]%elem_of_cons; [done|]. by rewrite IH.
Qed.

(** In a table with each column once, a column sits at its own index. *)
Lemma col_index_NoDup cols i c :
  NoDup cols -> cols !! i = Some c -> col_index c cols = Some i.
Proof.
  intros Hnd. revert i. induction cols as [|c' cols IH]; intros i; [done|].
  apply list.NoDup_cons in Hnd as [Hnotin Hnd]. simpl.
  destruct i as [|i]; simpl.
  - intros [= ->]. by rewrite String.eqb_refl.
  - intros Hi. destruct (String.eqb_spec c c') as [->|].
    + exfalso. apply Hnotin. by eapply list_elem_of_lookup_2.
    + by rewrite (IH Hnd i Hi).
Qed.

Lemma set_where_no_match (mask : list cell -> bool) c v df :
  Forall (fun r => mask r = false) (rows df) -> set_where mask c v df = df.
Proof.
  intros H. unfold set_where. destruct df as [cols rs]. simpl in *. f_equal.
  induction H as [|r rs Hr _ IH]; simpl; [done|]. by rewrite Hr, IH.
Qed.

(** A text value is not found in a cell by appending a flag to the row. *)
Lemma cell_at_add_column_str cols c c' b r s :
  c ∈ cols ->
  cell_at cols c r ≠ CStr s ->
  cell_at (cols ++ [c']) c (r ++ [CBool b]) ≠ CStr s.
Proof.
  intros Hin. unfold cell_at. rewrite col_index_app_l by done.
  destruct (col_index c cols) as [i|]; [|done].
  destruct (decide (i < length r)) as [Hlt|Hge].
  - by rewrite lookup_app_l.
  - intros _. rewrite lookup_app_r by lia.
    destruct (i - length r) as [|k]; simpl; [done|].
    by destruct k.
Qed.

Lemma map_lookup {A B} (f : A -> B) (l : list A) i :
  map f l !! i = f <$> l !! i.
Proof. exact (list_lookup_fmap f l i). Qed.

Lemma map_filter_comm {A B} (f : A -> B) (P : B -> Prop)
    (HP : forall y, Decision (P y)) (HPf : forall x, Decision (P (f x)))
    (l : list A) :
  map f (@filter _ _ _ (fun x => P (f x)) HPf l)
  = @filter _ _ _ P HP (map f l).
Proof.
  induction l as [|x l IH]; simpl; [done|].
  rewrite !filter_cons.
  unfold decide. destruct (HPf x), (HP (f x)); simpl; try done.
  by rewrite IH.
Qed.

(** A row laid out under another header keeps its cells. *)
Lemma cell_at_reindex src out c r :
  c ∈ out -> cell_at out c (reindex src out r) = cell_at src c r.
Proof.
  intros Hin. unfold cell_at at 1.
  destruct (col_index_elem c out Hin) as [i Hi]. rewrite Hi.
  apply col_index_lookup in Hi. unfold reindex.
  by rewrite map_lookup, Hi.
Qed.

Lemma length_reindex src out r : length (reindex src out r) = length out.
Proof. unfold reindex. apply List.length_map. Qed.

(** Under its own header a row is laid out as it is. *)
Lemma reindex_id cols r :
  NoDup cols -> length r = length cols -> reindex cols cols r = r.
Proof.
  intros Hnd Hlen. apply list_eq. intros i. unfold reindex.
  rewrite map_lookup.
  destruct (cols !! i) as [c|] eqn:Ec; simpl.
  - unfold cell_at. rewrite (col_index_NoDup cols i c Hnd Ec).
    apply lookup_lt_Some in Ec.
    destruct (lookup_lt_is_Some_2 r i) as [x Hx]; [lia|]. by rewrite Hx.
  - apply lookup_ge_None in Ec. symmetry. apply lookup_ge_None. lia.
Qed.

Lemma map_reindex_id cols (rs : list (list cell)) :
  NoDup cols -> Forall (fun r => length r = length cols) rs ->
  map (reindex cols cols) rs = rs.
Proof.
  intros Hnd H. induction H as [|r rs Hr _ IH]; simpl; [done|].
  by rewrite reindex_id, IH.
Qed.

(** *** The duplicate filter *)

Lemma columns_filter_new E N : columns (filter_new E N) = columns N.
Proof.
  unfold filter_new.
  destruct (has_column GAMEID N); [done|].
  by destruct (has_column GAMELINK N).
Qed.

Lemma filter_not_in_none (f : list cell -> cell) (s : gset cell)
    (rs : list (list cell)) :
  (forall x, x ∉ s) -> filter (fun r => f r ∉ s) rs = rs.
Proof.
  intros Hs. induction rs as [|r rs IH]; [done|].
  rewrite filter_cons, decide_True by done. by rewrite IH.
Qed.

Lemma filter_not_in_gset (f : list cell -> cell) (s : gset cell)
    (xs : list cell) (rs : list (list cell)) :
  (forall x, x ∈ s <-> x ∈ xs) ->
  filter (fun r => f r ∉ s) rs = filter (fun r => f r ∉ xs) rs.
Proof.
  intros Hs. induction rs as [|r rs IH]; [done|].
  rewrite !filter_cons, IH.
  destruct (decide (f r ∉ s)) as [H1|H1];
    destruct (decide (f r ∉ xs)) as [H2|H2]; try done;
    rewrite Hs in H1; tauto.
Qed.

(** Which rows of the new table pass the filter, by the columns that the
    two tables have. *)
Lemma rows_filter_new E N :
  rows (filter_new E N)
  = if has_column GAMEID N then
      if has_column GAMEID E then
        filter (fun r => cell_at (columns N) GAMEID r
                         ∉ column_values GAMEID E) (rows N)
      else rows N
    else if has_column GAMELINK N then
      if has_column GAMELINK E then
        filter (fun r => cell_at (columns N) GAMELINK r
                         ∉ column_values GAMELINK E) (rows N)
      else rows N
    else rows N.
Proof.
  unfold filter_new, drop_isin.
  destruct (has_column GAMEID N); simpl.
  - destruct (has_column GAMEID E).
    + apply (filter_not_in_gset (cell_at (columns N) GAMEID)).
      intros x. apply elem_of_list_to_set.
    + apply (filter_not_in_none (cell_at (columns N) GAMEID)).
      intros x. apply not_elem_of_empty.
  - destruct (has_column GAMELINK N); simpl; [|done].
    destruct (has_column GAMELINK E).
    + apply (filter_not_in_gset (cell_at (columns N) GAMELINK)).
      intros x. apply elem_of_list_to_set.
    + apply (filter_not_in_none (cell_at (columns N) GAMELINK)).
      intros x. apply not_elem_of_empty.
Qed.

Lemma empty_false df :
  empty df = false <-> columns df ≠ [] /\ rows df ≠ [].
Proof.
  unfold empty.
  destruct (columns df), (rows df); split; try done; by intros [? ?].
Qed.

Lemma empty_filter_new_rows E N :
  empty N = false -> empty (filter_new E N) = true ->
  rows (filter_new E N) = [].
Proof.
  intros [Hc _]%empty_false. unfold empty.
  rewrite columns_filter_new.
  destruct (columns N); [done|]. by destruct (rows (filter_new E N)).
Qed.

(** *** What [merge_csv_files] writes *)

Lemma merge_csv_files_run e n o fs E N :
  fs !! e = Some (Table E) -> fs !! n = Some (Table N) ->
  merge_csv_files e n o fs = (Ok true, <[o := Table (merged E N)]> fs).
Proof.
  intros He Hn. unfold merge_csv_files, merged.
  erewrite try_except_ok; [done|].
  erewrite bind_run by apply read_csv_safely_run.
  erewrite bind_run by apply read_csv_safely_run.
  rewrite He, Hn.
  destruct (empty N); [done|].
  by destruct (empty (filter_new E N)).
Qed.

Lemma columns_merged_incl E N c :
  c ∈ columns E -> c ∈ columns (merged E N).
Proof.
  intros Hc. unfold merged.
  destruct (empty N); [done|].
  destruct (empty (filter_new E N)); [done|].
  simpl. apply elem_of_app. by left.
Qed.

Lemma columns_merged_incl_new E N c :
  empty N = false -> rows (filter_new E N) ≠ [] ->
  c ∈ columns N -> c ∈ columns (merged E N).
Proof.
  intros HN Hrows Hc. unfold merged. rewrite HN.
  destruct (empty (filter_new E N)) eqn:EF.
  - by apply empty_filter_new_rows in EF.
  - simpl. rewrite columns_filter_new. apply elem_of_app.
    destruct (decide (c ∈ columns E)); [by left|right].
    by apply list_elem_of_filter.
Qed.

(** The merged table: the rows of the existing table, then the rows of the
    new one that pass the filter, each laid out under the merged header. *)
Lemma rows_merged E N :
  df_wf E -> empty N = false ->
  rows (merged E N)
  = map (reindex (columns E) (columns (merged E N))) (rows E)
    ++ map (reindex (columns N) (columns (merged E N)))
         (rows (filter_new E N)).
Proof.
  intros [Hnd Hrect] HN. unfold merged. rewrite HN.
  destruct (empty (filter_new E N)) eqn:EF.
  - rewrite (empty_filter_new_rows E N HN EF). simpl.
    by rewrite app_nil_r, map_reindex_id.
  - simpl. by rewrite columns_filter_new.
Qed.

(** **** C7 *)

(** C7: [game_exists_in_csv] returns normally on every file system, path and
    game id, and leaves the file system as it is; it returns [True] exactly
    when the file exists, parses, has the column GAMEID, and that column
    holds the game id. *)
Theorem game_exists_in_csv_iff p game_id fs :
  exists b,
    game_exists_in_csv p game_id fs = (Ok b, fs)
    /\ (b = true <->
        exists df,
          fs !! p = Some (Table df)
          /\ GAMEID ∈ columns df
          /\ CStr game_id ∈ column_values GAMEID df).
Proof.
  unfold game_exists_in_csv.
  erewrite bind_run by reflexivity.
  destruct (fs !! p) as [[|df]|] eqn:Ep.
  - rewrite bool_decide_true by eauto. cbn [negb].
    exists false. split.
    + erewrite try_except_raise; [done|].
      apply bind_raise. unfold pd_read_csv. by rewrite Ep.
    + split; [done|]. by intros (df & [=] & _).
  - rewrite bool_decide_true by eauto. cbn [negb].
    destruct (has_column GAMEID df) eqn:Ecol.
    + exists (bool_decide (CStr game_id ∈ column_values GAMEID df)). split.
      * erewrite try_except_ok; [done|].
        erewrite bind_run by (unfold pd_read_csv; by rewrite Ep).
        by rewrite Ecol.
      * rewrite bool_decide_eq_true. apply has_column_true in Ecol.
        split; [by exists df|]. by intros (df' & [= <-] & _ & H).
    + exists false. split.
      * erewrite try_except_ok; [done|].
        erewrite bind_run by (unfold pd_read_csv; by rewrite Ep).
        by rewrite Ecol.
      * apply has_column_false in Ecol.
        split; [done|]. by intros (df' & [= <-] & H & _).
  - rewrite bool_decide_false by (by intros [? ?]). cbn [negb].
    exists false. split; [done|]. split; [done|]. by intros (df & [=] & _).
Qed.

(** **** C4 *)

(** C4 as the claim has it fails: the existing table has no GAMEID column
    and holds the game link [link/1]; the only row of the new table has that
    link, and the new table has both GAMEID and GAMELINK. The merge keeps
    that row: the output is the existing row followed by it. *)
Lemma merge_csv_files_no_fallback_on_existing :
  (GAMEID ∉ columns existing_links)
  /\ GAMEID ∈ columns new_with_ids
  /\ GAMELINK ∈ columns new_with_ids
  /\ CStr "link/1" ∈ column_values GAMELINK existing_links
  /\ column_values GAMELINK new_with_ids = [CStr "link/1"]
  /\ merge_csv_files "existing.csv" "new.csv" "merged.csv" tables_links
     = (Ok true,
        <["merged.csv" :=
            Table {| columns := [GAMELINK; GAMEID];
                     rows := [[CStr "link/1"; CNaN];
                              [CStr "link/1"; CStr "X"]] |}]>
          tables_links).
Proof.
  split; [by apply (bool_decide_unpack _)|].
  split; [by apply (bool_decide_unpack _)|].
  split; [by apply (bool_decide_unpack _)|].
  split; [by apply (bool_decide_unpack _)|].
  split; [done|].
  by rewrite (merge_csv_files_run _ _ _ _ existing_links new_with_ids).
Qed.

(** C4, amended: for an existing table and a non-empty new table, the merge
    succeeds and writes the rows of the existing table followed by the kept
    rows of the new one. Which column filters depends on the new table. If
    the new table has GAMEID, the rows kept are those whose GAMEID is not
    among the existing table's GAMEID values, and all rows are kept if the
    existing table has no GAMEID column: there is no fallback to GAMELINK.
    If the new table has no GAMEID but has GAMELINK, the rows kept are those
    whose GAMELINK is not among the existing table's GAMELINK values, and
    all rows are kept if the existing table has no GAMELINK column. If the
    new table has neither column, all its rows are kept. *)
Theorem merge_csv_files_filter_column e n o fs E N :
  fs !! e = Some (Table E) ->
  fs !! n = Some (Table N) ->
  df_wf E ->
  empty N = false ->
  exists M kept,
    merge_csv_files e n o fs = (Ok true, <[o := Table M]> fs)
    /\ rows M
       = map (reindex (columns E) (columns M)) (rows E)
         ++ map (reindex (columns N) (columns M)) kept
    /\ (GAMEID ∈ columns N -> GAMEID ∈ columns E ->
        kept = filter (fun r => cell_at (columns N) GAMEID r
                                ∉ column_values GAMEID E) (rows N))
    /\ (GAMEID ∈ columns N -> GAMEID ∉ columns E -> kept = rows N)
    /\ (GAMEID ∉ columns N -> GAMELINK ∈ columns N ->
        GAMELINK ∈ columns E ->
        kept = filter (fun r => cell_at (columns N) GAMELINK r
                                ∉ column_values GAMELINK E) (rows N))
    /\ (GAMEID ∉ columns N -> GAMELINK ∈ columns N ->
        GAMELINK ∉ columns E -> kept = rows N)
    /\ (GAMEID ∉ columns N -> GAMELINK ∉ columns N -> kept = rows N).
Proof.
  intros He Hn Hwf HN.
  exists (merged E N), (rows (filter_new E N)).
  split; [by apply merge_csv_files_run|].
  split; [by apply rows_merged|].
  rewrite rows_filter_new.
  repeat split.
  - intros H1%has_column_true H2%has_column_true. by rewrite H1, H2.
  - intros H1%has_column_true H2%has_column_false. by rewrite H1, H2.
  - intros H1%has_column_false H2%has_column_true H3%has_column_true.
    by rewrite H1, H2, H3.
  - intros H1%has_column_false H2%has_column_true H3%has_column_false.
    by rewrite H1, H2, H3.
  - intros H1%has_column_false H2%has_column_false. by rewrite H1, H2.
Qed.

Lemma existing_links_wf : df_wf existing_links.
Proof.
  split; [by apply (bool_decide_unpack _)|].
  by repeat (apply List.Forall_cons || apply List.Forall_nil).
Qed.

Lemma merge_csv_files_filter_column_witness :
  exists M kept,
    merge_csv_files "existing.csv" "new.csv" "merged.csv" tables_links
    = (Ok true, <["merged.csv" := Table M]> tables_links)
    /\ rows M
       = map (reindex (columns existing_links) (columns M))
           (rows existing_links)
         ++ map (reindex (columns new_with_ids) (columns M)) kept
    /\ kept = rows new_with_ids.
Proof.
  destruct (merge_csv_files_filter_column
              "existing.csv" "new.csv" "merged.csv" tables_links
              existing_links new_with_ids)
    as (M & kept & Hrun & Hrows & _ & Hall & _).
  - reflexivity.
  - reflexivity.
  - exact existing_links_wf.
  - reflexivity.
  - exists M, kept. split; [exact Hrun|]. split; [exact Hrows|].
    apply Hall; by apply (bool_decide_unpack _).
Defined.

(** **** C5 *)

Lemma filter_not_in_self (cols : list string) :
  filter (fun c => c ∉ cols) cols = [].
Proof.
  assert (H : forall l, (forall c, c ∈ l -> c ∈ cols) ->
                        filter (fun c => c ∉ cols) l = []).
  { induction l as [|c l IH]; intros Hl; [done|].
    rewrite filter_cons, decide_False.
    - apply IH. intros c' Hc'. apply Hl. by right.
    - intros Hc. apply Hc, Hl. left. }
  by apply H.
Qed.

Lemma Forall_filter_sub {A} (P : A -> Prop) (Q : A -> Prop)
    `{forall x, Decision (Q x)} (l : list A) :
  Forall P l -> Forall P (filter Q l).
Proof.
  intros HP. apply list.Forall_forall. intros x [_ Hx]%list_elem_of_filter.
  rewrite list.Forall_forall in HP. by apply HP.
Qed.

(** The GAMEID column of the merged table. *)
Lemma column_values_merged c E N :
  df_wf E -> empty N = false -> c ∈ columns E ->
  (rows (filter_new E N) ≠ [] -> c ∈ columns N) ->
  column_values c (merged E N)
  = column_values c E
    ++ map (cell_at (columns N) c) (rows (filter_new E N)).
Proof.
  intros Hwf HN Hc HcN. unfold column_values at 1.
  rewrite rows_merged by done. rewrite List.map_app, !List.map_map.
  f_equal.
  - apply List.map_ext. intros r. apply cell_at_reindex.
    by apply columns_merged_incl.
  - destruct (rows (filter_new E N)) as [|r0 rs] eqn:Erows; [done|].
    rewrite <- Erows. apply List.map_ext. intros r. apply cell_at_reindex.
    by apply columns_merged_incl.
Qed.

(** C5: for an existing table and a non-empty new table that both have the
    column GAMEID, each with unique values in it, the merge succeeds and
    writes the rows of the existing table followed by exactly the rows of
    the new table whose GAMEID is not among the existing GAMEID values, in
    their order. Each row keeps its cells under the merged header, and when
    the two headers are equal the rows are unchanged. The GAMEID column of
    the output lists the existing values and then the new ones not yet
    there: every value of either table, each once. *)
Theorem merge_csv_files_dedup_by_gameid e n o fs E N :
  fs !! e = Some (Table E) ->
  fs !! n = Some (Table N) ->
  df_wf E -> df_wf N ->
  empty N = false ->
  GAMEID ∈ columns E -> GAMEID ∈ columns N ->
  NoDup (column_values GAMEID E) -> NoDup (column_values GAMEID N) ->
  let kept :=
    filter (fun r => cell_at (columns N) GAMEID r ∉ column_values GAMEID E)
      (rows N) in
  exists M,
    merge_csv_files e n o fs = (Ok true, <[o := Table M]> fs)
    /\ rows M
       = map (reindex (columns E) (columns M)) (rows E)
         ++ map (reindex (columns N) (columns M)) kept
    /\ (forall r c, r ∈ rows E -> c ∈ columns E ->
        cell_at (columns M) c (reindex (columns E) (columns M) r)
        = cell_at (columns E) c r)
    /\ (forall r c, r ∈ kept -> c ∈ columns N ->
        cell_at (columns M) c (reindex (columns N) (columns M) r)
        = cell_at (columns N) c r)
    /\ (columns N = columns E -> rows M = rows E ++ kept)
    /\ column_values GAMEID M
       = column_values GAMEID E
         ++ filter (fun x => x ∉ column_values GAMEID E)
              (column_values GAMEID N)
    /\ NoDup (column_values GAMEID M)
    /\ (forall x, x ∈ column_values GAMEID M
                  <-> x ∈ column_values GAMEID E
                      \/ x ∈ column_values GAMEID N).
Proof.
  intros He Hn HwfE HwfN HN HidE HidN HndE HndN kept.
  assert (Hkept : rows (filter_new E N) = kept).
  { rewrite rows_filter_new.
    by rewrite !(proj2 (has_column_true _ _)) by done. }
  assert (Hrows : rows (merged E N)
                  = map (reindex (columns E) (columns (merged E N))) (rows E)
                    ++ map (reindex (columns N) (columns (merged E N))) kept).
  { rewrite <- Hkept. by apply rows_merged. }
  assert (Hids : column_values GAMEID (merged E N)
                 = column_values GAMEID E
                   ++ filter (fun x => x ∉ column_values GAMEID E)
                        (column_values GAMEID N)).
  { rewrite column_values_merged by done. rewrite Hkept. f_equal.
    unfold kept.
    change (column_values GAMEID N)
      with (map (cell_at (columns N) GAMEID) (rows N)).
    apply (map_filter_comm (cell_at (columns N) GAMEID)
             (fun x => x ∉ column_values GAMEID E)). }
  exists (merged E N).
  split; [by apply merge_csv_files_run|].
  split; [exact Hrows|].
  split; [|split; [|split; [|split; [|split]]]].
  - intros r c _ Hc. apply cell_at_reindex. by apply columns_merged_incl.
  - intros r c Hr Hc. apply cell_at_reindex.
    apply columns_merged_incl_new; [done| |done].
    rewrite Hkept. intros Hnil. rewrite Hnil in Hr.
    by apply elem_of_nil in Hr.
  - intros Hcols. destruct HwfE as [HndcE HrectE].
    destruct HwfN as [_ HrectN].
    assert (Hcm : columns (merged E N) = columns E).
    { unfold merged. rewrite HN.
      destruct (empty (filter_new E N)); [done|]. simpl.
      by rewrite columns_filter_new, Hcols, filter_not_in_self, app_nil_r. }
    rewrite Hrows, Hcm, Hcols.
    rewrite (map_reindex_id (columns E) (rows E)) by done.
    rewrite (map_reindex_id (columns E) kept); [done|done|].
    apply Forall_filter_sub. by rewrite <- Hcols.
  - exact Hids.
  - rewrite Hids. apply list.NoDup_app. split; [done|]. split.
    + intros x Hx [Hnot _]%list_elem_of_filter. done.
    + by apply list.NoDup_filter.
  - intros x. rewrite Hids, elem_of_app, list_elem_of_filter.
    destruct (decide (x ∈ column_values GAMEID E)); tauto.
Qed.

Lemma existing_AB_wf : df_wf existing_AB.
Proof.
  split; [by apply (bool_decide_unpack _)|].
  by repeat (apply List.Forall_cons || apply List.Forall_nil).
Qed.

Lemma new_BC_wf : df_wf new_BC.
Proof.
  split; [by apply (bool_decide_unpack _)|].
  by repeat (apply List.Forall_cons || apply List.Forall_nil).
Qed.

(** The scenario of the specification: existing games A and B, new games
    B and C; the output has A, B and C once each, and B's row is the
    existing one. *)
Lemma merge_csv_files_dedup_by_gameid_witness :
  exists M,
    merge_csv_files "existing.csv" "new.csv" "merged.csv" tables_AB_BC
    = (Ok true, <["merged.csv" := Table M]> tables_AB_BC)
    /\ rows M = [[CStr "A"; CStr "Home A"; CStr "link/A"];
                 [CStr "B"; CStr "Home B"; CStr "link/B"];
                 [CStr "C"; CStr "Home C"; CStr "link/C"]]
    /\ column_values GAMEID M = [CStr "A"; CStr "B"; CStr "C"].
Proof.
  destruct (merge_csv_files_dedup_by_gameid
              "existing.csv" "new.csv" "merged.csv" tables_AB_BC
              existing_AB new_BC)
    as (M & Hrun & _ & _ & _ & Hsame & Hids & _).
  - reflexivity.
  - reflexivity.
  - exact existing_AB_wf.
  - exact new_BC_wf.
  - reflexivity.
  - by apply (bool_decide_unpack _).
  - by apply (bool_decide_unpack _).
  - by apply (bool_decide_unpack _).
  - by apply (bool_decide_unpack _).
  - exists M. split; [exact Hrun|]. split.
    + rewrite Hsame by reflexivity. reflexivity.
    + rewrite Hids. reflexivity.
Defined.

(** **** C6 *)

Lemma filter_all_out {A} (P : A -> Prop) `{forall x, Decision (P x)}
    (l : list A) :
  Forall (fun x => ~ P x) l -> filter P l = [].
Proof.
  induction 1 as [|x l Hx _ IH]; [done|].
  by rewrite filter_cons, decide_False.
Qed.


Lemma column_values_elem c df r :
  r ∈ rows df -> cell_at (columns df) c r ∈ column_values c df.
Proof.
  intros Hr. unfold column_values. apply list_elem_of_fmap. by exists r.
Qed.

Lemma NoDup_columns_concat (a b : DataFrame) :
  NoDup (columns a) -> NoDup (columns b) -> NoDup (columns (concat a b)).
Proof.
  intros Ha Hb. simpl. apply list.NoDup_app. split; [done|]. split.
  - intros c Hc [Hnot _]%list_elem_of_filter. done.
  - by apply list.NoDup_filter.
Qed.










(** **** C10 *)

(** C10: [update_duplicate_flag] returns [False] and leaves the file system
    as it is when the file is missing, unreadable, or has no GAMELINK
    column. When the table is read and has GAMELINK but no row has the
    given game link, it returns [True] and writes back the table it read,
    with the column DUPLICATE_ACROSS_DIVISIONS added last, [False] in every
    row, if the table had no such column; nothing else changes. *)
Theorem update_duplicate_flag_frame p game_link value fs :
  ((fs !! p = None \/ fs !! p = Some Unreadable
    \/ exists df, fs !! p = Some (Table df) /\ GAMELINK ∉ columns df) ->
   update_duplicate_flag p game_link value fs = (Ok false, fs))
  /\ (forall df,
        fs !! p = Some (Table df) ->
        GAMELINK ∈ columns df ->
        CStr game_link ∉ column_values GAMELINK df ->
        update_duplicate_flag p game_link value fs
        = (Ok true,
           <[p := Table
               (if decide (DUPLICATE_ACROSS_DIVISIONS ∈ columns df) then df
                else {| columns :=
                          columns df ++ [DUPLICATE_ACROSS_DIVISIONS];
                        rows :=
                          map (fun r => r ++ [CBool false]) (rows df) |})]>
             fs)).
Proof.
  split.
  - intros Hcase. unfold update_duplicate_flag.
    erewrite try_except_ok; [done|].
    erewrite bind_run by apply read_csv_safely_run.
    destruct Hcase as [->|[->|(df & -> & Hcol)]]; [done..|].
    apply has_column_false in Hcol. by rewrite Hcol.
  - intros df Hp Hlink Hnone. unfold update_duplicate_flag.
    erewrite try_except_ok; [done|].
    erewrite bind_run by apply read_csv_safely_run. rewrite Hp.
    rewrite (proj2 (has_column_true _ _) Hlink). cbn [negb].
    assert (Hrows : Forall (fun r => cell_at (columns df) GAMELINK r
                                     ≠ CStr game_link) (rows df)).
    { apply list.Forall_forall. intros r Hr Heq. apply Hnone.
      unfold column_values. apply list_elem_of_fmap. by exists r. }
    destruct (decide (DUPLICATE_ACROSS_DIVISIONS ∈ columns df)) as [Hd|Hd].
    + rewrite (proj2 (has_column_true _ _) Hd). cbn [negb].
      rewrite set_where_no_match; [done|].
      eapply list.Forall_impl; [exact Hrows|]. intros r Hr. simpl.
      by apply bool_decide_eq_false.
    + rewrite (proj2 (has_column_false _ _) Hd). cbn [negb].
      rewrite set_where_no_match; [done|].
      unfold add_column. simpl. apply list.Forall_fmap.
      eapply list.Forall_impl; [exact Hrows|]. intros r Hr. simpl.
      apply bool_decide_eq_false. by apply cell_at_add_column_str.
Qed.

Lemma update_duplicate_flag_frame_witness :
  update_duplicate_flag "missing.csv" "link/1" true tables_links
  = (Ok false, tables_links)
  /\ update_duplicate_flag "new.csv" "link/9" true tables_links
     = (Ok true,
        <["new.csv" :=
            Table {| columns := [GAMEID; GAMELINK;
                                 DUPLICATE_ACROSS_DIVISIONS];
                     rows := [[CStr "X"; CStr "link/1"; CBool false]] |}]>
          tables_links).
Proof.
  split.
  - apply (proj1 (update_duplicate_flag_frame "missing.csv" "link/1" true
                    tables_links)).
    left. reflexivity.
  - apply (proj2 (update_duplicate_flag_frame "new.csv" "link/9" true
                    tables_links) new_with_ids).
    + reflexivity.
    + by apply (bool_decide_unpack _).
    + by apply (bool_decide_unpack _).
Defined.
End CSVHandlerFacts.

(** * Further properties of the ledger *)

Section LedgerExtras.
Import FailedGames.
Implicit Types (fs : filesys) (l : ledger) (p g dk dv gd et em : string).

Lemma dict_set_id {V} k (v : V) (d : pydict V) :
  dict_get k d = Some v -> dict_set k v d = d.
Proof.
  induction d as [|[k0 v0] d IH]; simpl; [done|].
  destruct (String.eqb_spec k k0) as [->|].
  - by intros [= ->].
  - intros H. by rewrite IH.
Qed.

Lemma dict_keys_set_new {V} k (v : V) (d : pydict V) :
  dict_get k d = None -> dict_keys (dict_set k v d) = dict_keys d ++ [k].
Proof.
  unfold dict_keys. induction d as [|[k0 v0] d IH]; simpl; [done|].
  destruct (String.eqb k k0); [done|]. intros H. simpl. by rewrite IH.
Qed.

Lemma dict_get_None_keys {V} k (d : pydict V) :
  dict_get k d = None -> k ∉ dict_keys d.
Proof.
  unfold dict_keys. induction d as [|[k0 v0] d IH]; simpl.
  - intros _ ?%elem_of_nil. done.
  - destruct (String.eqb_spec k k0) as [->|Hne]; [done|].
    intros H [?|?]%elem_of_cons; [done|]. by apply IH.
Qed.

Lemma dict_wf_set {V} k (v : V) (d : pydict V) :
  dict_wf d -> dict_wf (dict_set k v d).
Proof.
  intros Hwf. destruct (dict_get k d) as [v0|] eqn:E.
  - apply dict_wf_set_mem; [by eexists | done].
  - unfold dict_wf. rewrite dict_keys_set_new by done.
    apply list.NoDup_app. split; [done|]. split.
    + intros x Hx Hin.
      apply elem_of_cons in Hin as [->|Hin]; [|by apply elem_of_nil in Hin].
      by apply dict_get_None_keys in E.
    + apply NoDup_singleton.
Qed.

Lemma find_split_first {A} (q : A -> bool) (xs : list A) x :
  find q xs = Some x ->
  exists pre post,
    xs = pre ++ x :: post /\ Forall (fun y => q y = false) pre /\ q x = true.
Proof.
  induction xs as [|y xs IH]; simpl; [done|].
  destruct (q y) eqn:E.
  - intros [= ->]. exists [], xs. by repeat split.
  - intros (pre & post & -> & Hpre & Hx)%IH.
    exists (y :: pre), post. repeat split; [|done]. by constructor.
Qed.

Lemma Forall_dict_set {V} (P : string * V -> Prop) k (v : V) (d : pydict V) :
  P (k, v) -> Forall P d -> Forall P (dict_set k v d).
Proof.
  intros Hv. induction 1 as [|[k0 v0] d Hx Hd IH]; simpl.
  - by constructor.
  - destruct (String.eqb_spec k k0) as [->|]; by constructor.
Qed.

Lemma Forall_dict_del {V} (P : string * V -> Prop) k (d : pydict V) :
  Forall P d -> Forall P (dict_del k d).
Proof.
  induction 1 as [|[k0 v0] d Hx _ IH]; simpl; [done|].
  destruct (String.eqb k k0); [done | by constructor].
Qed.

(** **** X1 *)

(** X1: a save on a path with no file, or with a file that does not parse,
    returns normally and leaves at that path the ledger with the one date,
    the one game and the one record saved, its retry count 0. *)
Theorem save_failed_game_fresh_file p g d dv gd et em fs :
  fs !! p = None \/ fs !! p = Some Unparsable ->
  save_failed_game p g d dv gd et em fs
  = (Ok tt,
     <[p := Json [(isoformat d,
                   [(g, [{| division := dv; gender := gd; error_type := et;
                            error_message := em;
                            retry_count := Some 0%Z |}])])]]> fs).
Proof.
  intros Hp. rewrite save_failed_game_run.
  assert (Hl : ledger_at fs p = []).
  { unfold ledger_at. by destruct Hp as [->| ->]. }
  by rewrite Hl.
Qed.

Lemma save_failed_game_fresh_file_witness :
  save_failed_game "failed.json" "g1" (mkDate 2025 1 12) "d1" "men"
    "timeout" "" {["failed.json" := Unparsable]}
  = (Ok tt,
     <["failed.json" :=
         Json [("2025-01-12",
                [("g1", [{| division := "d1"; gender := "men";
                            error_type := "timeout"; error_message := "";
                            retry_count := Some 0%Z |}])])]]>
       {["failed.json" := Unparsable]}).
Proof.
  apply (save_failed_game_fresh_file "failed.json" "g1" (mkDate 2025 1 12)
           "d1" "men" "timeout" "" {["failed.json" := Unparsable]}).
  right. apply lookup_singleton_eq.
Defined.

(** **** X2 *)

Lemma add_or_update_twice dv gd et em (es : bucket) :
  add_or_update dv gd et em (add_or_update dv gd et em es)
  = add_or_update dv gd et em es.
Proof.
  destruct (find (matches dv gd) es) as [e|] eqn:Ef.
  - apply find_split_first in Ef as (pre & post & -> & Hpre & He).
    assert (H1 : add_or_update dv gd et em (pre ++ e :: post)
                 = pre ++ overwrite_error et em e :: post).
    { unfold add_or_update. rewrite find_at_first by done.
      by rewrite update_first_at. }
    rewrite H1. unfold add_or_update.
    rewrite find_at_first by done. by rewrite update_first_at.
  - assert (H1 : add_or_update dv gd et em es
                 = es ++ [new_entry dv gd et em]).
    { unfold add_or_update. by rewrite Ef. }
    rewrite H1. apply find_none_forall in Ef.
    assert (Hnew : matches dv gd (new_entry dv gd et em) = true).
    { by apply matches_entry_key. }
    unfold add_or_update.
    rewrite find_at_first by done. by rewrite update_first_at.
Qed.

Lemma saved_ledger_twice g dk dv gd et em l :
  saved_ledger g dk dv gd et em (saved_ledger g dk dv gd et em l)
  = saved_ledger g dk dv gd et em l.
Proof.
  unfold saved_ledger.
  set (games := default [] (dict_get dk l)).
  set (es := default [] (dict_get g games)).
  set (games1 := dict_set g (add_or_update dv gd et em es) games).
  rewrite (dict_get_set_eq dk games1 l). cbn [default from_option id].
  unfold games1 at 1 2.
  rewrite (dict_get_set_eq g _ games). cbn [default from_option id].
  rewrite add_or_update_twice. unfold games1.
  by rewrite !dict_set_set.
Qed.

(** X2: saving the same failure twice is the same as saving it once: the
    second call returns normally and leaves the file system as the first
    left it. *)
Theorem save_failed_game_idempotent p g d dv gd et em fs :
  save_failed_game p g d dv gd et em
    (save_failed_game p g d dv gd et em fs).2
  = (Ok tt, (save_failed_game p g d dv gd et em fs).2).
Proof.
  rewrite !save_failed_game_run. cbn [snd]. f_equal.
  unfold ledger_at at 1. rewrite lookup_insert_eq, insert_insert_eq.
  by rewrite saved_ledger_twice.
Qed.

(** **** X3 *)

Lemma load_failed_games_run p (target_date : option date) fs :
  load_failed_games p target_date fs
  = (Ok match fs !! p with
        | Some (Json l) =>
            match target_date with
            | Some d => [(isoformat d, default [] (dict_get (isoformat d) l))]
            | None => l
            end
        | _ => []
        end,
     fs).
Proof.
  unfold load_failed_games.
  erewrite bind_run by reflexivity.
  destruct (fs !! p) as [[|l]|] eqn:Ep.
  - rewrite bool_decide_true by eauto. cbn [negb].
    erewrite try_except_raise; [done|].
    apply bind_raise. unfold json_load. by rewrite Ep.
  - rewrite bool_decide_true by eauto. cbn [negb].
    erewrite try_except_ok; [done|].
    erewrite bind_run by (unfold json_load; by rewrite Ep).
    by destruct target_date.
  - by rewrite bool_decide_false by (by intros [? ?]).
Qed.

Lemma matching_games_intro dv gd g es (games : pydict bucket) :
  dict_get g games = Some es ->
  existsb (matches dv gd) es = true ->
  g ∈ matching_games dv gd games.
Proof.
  induction games as [|[g0 es0] games IH]; simpl; [done|].
  destruct (String.eqb_spec g g0) as [->|Hne].
  - intros [= ->] ->. left.
  - intros Hget Hex. specialize (IH Hget Hex).
    destruct (existsb (matches dv gd) es0); [by right | done].
Qed.

Lemma existsb_filter_nonempty {A} (q : A -> bool) (xs : list A) :
  existsb q xs = true <-> filter (fun x => q x = true) xs ≠ [].
Proof.
  induction xs as [|x xs IH]; simpl; [done|].
  rewrite filter_cons. destruct (decide (q x = true)) as [E|E].
  - by rewrite E.
  - apply not_true_is_false in E. by rewrite E.
Qed.

(** Loading for one date shows the same records and answers the same query
    for that date as the whole ledger. *)
Lemma entries_of_one_date dk g l :
  entries_of [(dk, default [] (dict_get dk l))] dk g = entries_of l dk g.
Proof.
  unfold entries_of. simpl. rewrite String.eqb_refl. simpl.
  by destruct (dict_get dk l).
Qed.

Lemma query_iff_records l d g dv gd :
  records_for l (isoformat d) g dv gd ≠ [] ->
  g ∈ get_failed_games_for_division_gender l d dv gd.
Proof.
  unfold records_for, entries_of, get_failed_games_for_division_gender.
  destruct (dict_get (isoformat d) l) as [games|]; simpl; [|done].
  destruct (dict_get g games) as [es|] eqn:Eg; simpl; [|done].
  intros Hne. eapply matching_games_intro; [done|].
  by apply existsb_filter_nonempty.
Qed.

(** X3: after a save, loading the file (whole, or for the date saved)
    returns normally a ledger in which the first record of the key
    (date, game, division, gender) carries the error fields saved, and the
    query of that ledger for the date, division and gender returns the game. *)
Theorem save_then_load_query p g d dv gd et em fs :
  let fs' := (save_failed_game p g d dv gd et em fs).2 in
  (exists loaded,
     load_failed_games p None fs' = (Ok loaded, fs')
     /\ g ∈ get_failed_games_for_division_gender loaded d dv gd
     /\ exists e rest,
          records_for loaded (isoformat d) g dv gd = e :: rest
          /\ error_type e = et /\ error_message e = em)
  /\ (exists loaded,
        load_failed_games p (Some d) fs' = (Ok loaded, fs')
        /\ g ∈ get_failed_games_for_division_gender loaded d dv gd
        /\ exists e rest,
             records_for loaded (isoformat d) g dv gd = e :: rest
             /\ error_type e = et /\ error_message e = em).
Proof.
  intros fs'.
  set (l' := saved_ledger g (isoformat d) dv gd et em (ledger_at fs p)).
  assert (Hfs' : fs' !! p = Some (Json l')).
  { unfold fs'. rewrite save_failed_game_run. cbn [snd].
    apply lookup_insert_eq. }
  assert (Hrec : exists e rest,
            records_for l' (isoformat d) g dv gd = e :: rest
            /\ error_type e = et /\ error_message e = em).
  { unfold l'. rewrite records_for_saved.
    destruct (records_for (ledger_at fs p) (isoformat d) g dv gd) as [|e r].
    - by eexists _, [].
    - by eexists _, r. }
  split.
  - exists l'. rewrite load_failed_games_run, Hfs'. split; [done|].
    split; [|done]. apply query_iff_records.
    destruct Hrec as (e & r & -> & _). done.
  - exists [(isoformat d, default [] (dict_get (isoformat d) l'))].
    rewrite load_failed_games_run, Hfs'. split; [done|].
    assert (Hsame : records_for
                      [(isoformat d, default [] (dict_get (isoformat d) l'))]
                      (isoformat d) g dv gd
                    = records_for l' (isoformat d) g dv gd).
    { unfold records_for. by rewrite entries_of_one_date. }
    rewrite Hsame. split; [|done]. apply query_iff_records.
    rewrite Hsame. destruct Hrec as (e & r & -> & _). done.
Qed.

(** **** X4 *)

(** X4: when the ledger at the path holds no record for
    (date, game, division, gender), a retry mark of either outcome returns
    normally and leaves the whole file system as it was; this covers a
    missing file, a file that does not parse, a missing date or game, and a
    game whose records are all for other divisions or genders. *)
Theorem mark_game_as_retried_no_record p g d dv gd success fs :
  records_for (ledger_at fs p) (isoformat d) g dv gd = [] ->
  mark_game_as_retried p g d dv gd success fs = (Ok tt, fs).
Proof.
  intros Hnone. rewrite mark_game_as_retried_run.
  unfold ledger_at in Hnone.
  destruct (fs !! p) as [[|l]|] eqn:Ep; try done.
  destruct (dict_get (isoformat d) l) as [games|] eqn:Edk; [|done].
  destruct (dict_get g games) as [es|] eqn:Eg; [|done].
  assert (Hfind : find (matches dv gd) es = None).
  { unfold records_for, entries_of in Hnone. rewrite Edk in Hnone.
    simpl in Hnone. rewrite Eg in Hnone. simpl in Hnone.
    by rewrite find_filter, Hnone. }
  assert (Hl : marked_ledger g (isoformat d) dv gd success l = l).
  { unfold marked_ledger, retry_in_games. rewrite Edk, Eg, Hfind.
    destruct games as [|x xs]; [done|]. by apply dict_set_id. }
  rewrite Hl. f_equal. by apply insert_id.
Qed.

Lemma mark_game_as_retried_no_record_witness :
  mark_game_as_retried "failed.json" "g1" (mkDate 2025 1 12) "d3" "women"
    true {["failed.json" := Json ledger_example]}
  = (Ok tt, {["failed.json" := Json ledger_example]}).
Proof.
  apply (mark_game_as_retried_no_record "failed.json" "g1"
           (mkDate 2025 1 12) "d3" "women" true
           {["failed.json" := Json ledger_example]}).
  reflexivity.
Defined.

(** **** X5 *)

Lemma ledger_wf_nil : ledger_wf [].
Proof. split; constructor. Qed.

Lemma ledger_wf_games_default l dk :
  ledger_wf l -> dict_wf (default [] (dict_get dk l)).
Proof.
  intros Hwf. destruct (dict_get dk l) as [games|] eqn:E; simpl.
  - by eapply ledger_wf_games.
  - constructor.
Qed.

Lemma saved_ledger_wf g dk dv gd et em l :
  ledger_wf l -> ledger_wf (saved_ledger g dk dv gd et em l).
Proof.
  intros Hwf. pose proof (ledger_wf_games_default l dk Hwf) as Hg.
  destruct Hwf as [Hl Hall]. unfold saved_ledger. split.
  - by apply dict_wf_set.
  - apply Forall_dict_set; [|done]. simpl. by apply dict_wf_set.
Qed.

Lemma marked_ledger_wf g dk dv gd success l :
  ledger_wf l -> ledger_wf (marked_ledger g dk dv gd success l).
Proof.
  intros Hwf. unfold marked_ledger.
  destruct (dict_get dk l) as [games|] eqn:Edk; [|done].
  destruct (dict_get g games) as [es|] eqn:Eg; [|done].
  assert (Hg : dict_wf games) by eauto using ledger_wf_games.
  destruct Hwf as [Hl Hall].
  assert (Hg' : dict_wf (retry_in_games g dv gd success es games)).
  { unfold retry_in_games. destruct (find (matches dv gd) es); [|done].
    destruct success.
    - destruct (remove_first (matches dv gd) es).
      + by apply dict_wf_del.
      + by apply dict_wf_set.
    - by apply dict_wf_set. }
  destruct (retry_in_games g dv gd success es games) as [|x xs] eqn:Er.
  - split.
    + apply dict_wf_del. by apply dict_wf_set.
    + apply Forall_dict_del. by apply Forall_dict_set.
  - split.
    + by apply dict_wf_set.
    + by apply Forall_dict_set.
Qed.

(** X5: both writers keep the ledger a well-formed dictionary of
    dictionaries with at most one record per
    (date, game, division, gender): if the ledger at the path has these two
    properties before a save or a retry mark (with any arguments), the ledger
    at the path has them after it. An empty or missing ledger has both. *)
Theorem ledger_writers_keep_invariants p g d dv gd fs :
  ledger_wf (ledger_at fs p) ->
  at_most_one (ledger_at fs p) ->
  (forall et em,
     ledger_wf (ledger_at (save_failed_game p g d dv gd et em fs).2 p)
     /\ at_most_one (ledger_at (save_failed_game p g d dv gd et em fs).2 p))
  /\ (forall success,
        ledger_wf
          (ledger_at (mark_game_as_retried p g d dv gd success fs).2 p)
        /\ at_most_one
             (ledger_at (mark_game_as_retried p g d dv gd success fs).2 p)).
Proof.
  intros Hwf Hinv. split.
  - intros et em. rewrite ledger_at_saved.
    split; [by apply saved_ledger_wf | by apply saved_ledger_at_most_one].
  - intros success. rewrite ledger_at_marked.
    split; [by apply marked_ledger_wf | by apply marked_ledger_at_most_one].
Qed.

Lemma ledger_writers_keep_invariants_witness :
  ledger_wf
    (ledger_at
       (save_failed_game "failed.json" "g2" (mkDate 2025 1 12) "d1" "men"
          "timeout" "" {["failed.json" := Json ledger_example]}).2
       "failed.json")
  /\ at_most_one
       (ledger_at
          (mark_game_as_retried "failed.json" "g1" (mkDate 2025 1 12) "d1"
             "men" true {["failed.json" := Json ledger_example]}).2
          "failed.json").
Proof.
  destruct (ledger_writers_keep_invariants "failed.json" "g2"
              (mkDate 2025 1 12) "d1" "men"
              {["failed.json" := Json ledger_example]}) as [Hsave _].
  - exact ledger_example_wf.
  - exact ledger_example_at_most_one.
  - destruct (ledger_writers_keep_invariants "failed.json" "g1"
                (mkDate 2025 1 12) "d1" "men"
                {["failed.json" := Json ledger_example]}) as [_ Hmark].
    + exact ledger_example_wf.
    + exact ledger_example_at_most_one.
    + split; [apply (Hsave "timeout" "") | apply (Hmark true)].
Defined.

(** **** X6 *)

Lemma matching_games_sublist dv gd (games : pydict bucket) :
  matching_games dv gd games `sublist_of` dict_keys games.
Proof.
  induction games as [|[g0 es0] games IH]; simpl; [done|].
  destruct (existsb (matches dv gd) es0).
  - by apply sublist_skip.
  - by apply sublist_cons.
Qed.

(** X6: on a well-formed ledger the query returns exactly the games that
    have a record for the date, division and gender, each game once, in the
    order in which the games stand under the date. *)
Theorem query_exact l d dv gd :
  ledger_wf l ->
  NoDup (get_failed_games_for_division_gender l d dv gd)
  /\ (forall g,
        g ∈ get_failed_games_for_division_gender l d dv gd
        <-> records_for l (isoformat d) g dv gd ≠ [])
  /\ get_failed_games_for_division_gender l d dv gd
     `sublist_of` dict_keys (default [] (dict_get (isoformat d) l)).
Proof.
  intros Hwf. pose proof (ledger_wf_games_default l (isoformat d) Hwf) as Hg.
  unfold get_failed_games_for_division_gender.
  split; [|split].
  - eapply sublist_NoDup; [exact Hg | apply matching_games_sublist].
  - intros g. split; [|apply query_iff_records].
    intros (es & Hin & Hex)%elem_of_matching_games.
    apply dict_elem_get in Hin; [|done].
    unfold records_for, entries_of.
    destruct (dict_get (isoformat d) l) as [games|]; simpl in *; [|done].
    rewrite Hin. simpl. by apply existsb_filter_nonempty.
  - apply matching_games_sublist.
Qed.

Lemma query_exact_witness :
  NoDup (get_failed_games_for_division_gender ledger_example
           (mkDate 2025 1 12) "d1" "men")
  /\ "g1" ∈ get_failed_games_for_division_gender ledger_example
              (mkDate 2025 1 12) "d1" "men".
Proof.
  destruct (query_exact ledger_example (mkDate 2025 1 12) "d1" "men")
    as (Hnd & Hiff & _).
  - exact ledger_example_wf.
  - split; [exact Hnd|]. apply Hiff. discriminate.
Defined.

(** **** X7 *)

Lemma matching_games_set_same dv gd g es es' (games : pydict bucket) :
  dict_get g games = Some es ->
  existsb (matches dv gd) es' = existsb (matches dv gd) es ->
  matching_games dv gd (dict_set g es' games) = matching_games dv gd games.
Proof.
  intros Hget Hex. induction games as [|[g0 es0] games IH]; simpl in *; [done|].
  destruct (String.eqb_spec g g0) as [->|Hne]; simpl.
  - injection Hget as ->. by rewrite Hex.
  - by rewrite (IH Hget).
Qed.

Lemma existsb_update_first {A} (p q : A -> bool) f (xs : list A) :
  (forall x, q (f x) = q x) ->
  existsb q (update_first p f xs) = existsb q xs.
Proof.
  intros Hq. induction xs as [|x xs IH]; simpl; [done|].
  destruct (p x); simpl; [by rewrite Hq | by rewrite IH].
Qed.

Lemma query_dict_set_ne (l : ledger) dk games d dv gd :
  dk ≠ isoformat d ->
  get_failed_games_for_division_gender (dict_set dk games l) d dv gd
  = get_failed_games_for_division_gender l d dv gd.
Proof.
  intros Hne. unfold get_failed_games_for_division_gender.
  by rewrite dict_get_set_ne.
Qed.

(** X7: a failed retry mark never changes what a query returns: for every
    date, division and gender, the query of the ledger at the path returns
    the same list after [mark_game_as_retried(success=False)] as before. *)
Theorem failed_retry_keeps_queries p g d dv gd fs d' dv' gd' :
  get_failed_games_for_division_gender
    (ledger_at (mark_game_as_retried p g d dv gd false fs).2 p) d' dv' gd'
  = get_failed_games_for_division_gender (ledger_at fs p) d' dv' gd'.
Proof.
  rewrite ledger_at_marked. generalize (ledger_at fs p) as l. intros l.
  unfold marked_ledger.
  destruct (dict_get (isoformat d) l) as [games|] eqn:Edk; [|done].
  destruct (dict_get g games) as [es|] eqn:Eg; [|done].
  set (games' := retry_in_games g dv gd false es games).
  assert (Hsame : matching_games dv' gd' games'
                  = matching_games dv' gd' games).
  { unfold games', retry_in_games.
    destruct (find (matches dv gd) es); [|done].
    eapply matching_games_set_same; [done|].
    by apply existsb_update_first. }
  assert (Hne : games' ≠ []).
  { unfold games', retry_in_games. intros Hnil.
    destruct (find (matches dv gd) es).
    - pose proof (dict_get_set_eq g
        (update_first (matches dv gd) bump_retry es) games) as H.
      by rewrite Hnil in H.
    - by rewrite Hnil in Eg. }
  destruct games' as [|x xs] eqn:Egames'; [done|]. rewrite <- Egames' in *.
  destruct (decide (isoformat d = isoformat d')) as [Heq|Hd].
  - unfold get_failed_games_for_division_gender.
    rewrite <- Heq, dict_get_set_eq, Edk. simpl. exact Hsame.
  - by apply query_dict_set_ne.
Qed.

(** **** X8 *)

Lemma matching_games_del dv gd g (games : pydict bucket) :
  (forall es, (g, es) ∈ games -> existsb (matches dv gd) es = false) ->
  matching_games dv gd (dict_del g games) = matching_games dv gd games.
Proof.
  induction games as [|[g0 es0] games IH]; intros Hall; simpl; [done|].
  assert (IH' : matching_games dv gd (dict_del g games)
                = matching_games dv gd games).
  { apply IH. intros es Hin. apply Hall. by right. }
  destruct (String.eqb_spec g g0) as [->|Hne]; simpl.
  - rewrite (Hall es0) by left. exact IH'.
  - by rewrite IH'.
Qed.

Lemma existsb_remove_other {A} (p q : A -> bool) (xs : list A) :
  (forall x, p x = true -> q x = false) ->
  existsb q (remove_first p xs) = existsb q xs.
Proof.
  intros Hpq. induction xs as [|x xs IH]; simpl; [done|].
  destruct (p x) eqn:E; simpl.
  - by rewrite (Hpq x E).
  - by rewrite IH.
Qed.

Lemma matches_other_key dv gd dv' gd' e :
  (dv', gd') ≠ (dv, gd) -> matches dv gd e = true -> matches dv' gd' e = false.
Proof.
  intros Hne [<- <-]%matches_entry_key.
  destruct (matches dv' gd' e) eqn:E; [|done].
  apply matches_entry_key in E as [<- <-]. done.
Qed.

(** X8: a successful retry mark for one (date, division, gender) leaves the
    answer to every other query as it was: on a well-formed ledger, the query
    for a date, division and gender that differ from those marked returns
    the same list after [mark_game_as_retried(success=True)] as before. *)
Theorem successful_retry_keeps_other_queries p g d dv gd fs d' dv' gd' :
  ledger_wf (ledger_at fs p) ->
  (isoformat d', dv', gd') ≠ (isoformat d, dv, gd) ->
  get_failed_games_for_division_gender
    (ledger_at (mark_game_as_retried p g d dv gd true fs).2 p) d' dv' gd'
  = get_failed_games_for_division_gender (ledger_at fs p) d' dv' gd'.
Proof.
  rewrite ledger_at_marked. generalize (ledger_at fs p) as l.
  intros l Hwf Hkey. unfold marked_ledger.
  destruct (dict_get (isoformat d) l) as [games|] eqn:Edk; [|done].
  destruct (dict_get g games) as [es|] eqn:Eg; [|done].
  assert (Hwfg : dict_wf games) by eauto using ledger_wf_games.
  set (games' := retry_in_games g dv gd true es games).
  destruct (decide (isoformat d = isoformat d')) as [Heq|Hd].
  2: { unfold get_failed_games_for_division_gender.
       destruct games'.
       - by rewrite dict_get_del_ne, dict_get_set_ne.
       - by rewrite dict_get_set_ne. }
  assert (Hdg : (dv', gd') ≠ (dv, gd)) by congruence.
  assert (Hsame : matching_games dv' gd' games'
                  = matching_games dv' gd' games).
  { unfold games', retry_in_games.
    destruct (find (matches dv gd) es) as [e|] eqn:Ef; [|done].
    assert (Hex : existsb (matches dv' gd') (remove_first (matches dv gd) es)
                  = existsb (matches dv' gd') es).
    { apply existsb_remove_other. intros x. by apply matches_other_key. }
    destruct (remove_first (matches dv gd) es) as [|y ys] eqn:Er.
    - apply matching_games_del. intros es0 Hin.
      apply dict_elem_get in Hin; [|done].
      rewrite Eg in Hin. injection Hin as <-. by rewrite <- Hex.
    - eapply matching_games_set_same; [done|]. exact Hex. }
  unfold get_failed_games_for_division_gender.
  rewrite <- Heq, Edk. simpl. rewrite <- Hsame.
  destruct games' as [|x xs].
  - by rewrite dict_get_del_eq.
  - by rewrite dict_get_set_eq.
Qed.

Lemma successful_retry_keeps_other_queries_witness :
  get_failed_games_for_division_gender
    (ledger_at
       (mark_game_as_retried "failed.json" "g1" (mkDate 2025 1 12) "d1" "men"
          true {["failed.json" := Json ledger_example]}).2
       "failed.json")
    (mkDate 2025 1 12) "d2" "men"
  = get_failed_games_for_division_gender
      (ledger_at {["failed.json" := Json ledger_example]} "failed.json")
      (mkDate 2025 1 12) "d2" "men".
Proof.
  apply (successful_retry_keeps_other_queries "failed.json" "g1"
           (mkDate 2025 1 12) "d1" "men"
           {["failed.json" := Json ledger_example]}
           (mkDate 2025 1 12) "d2" "men").
  - exact ledger_example_wf.
  - discriminate.
Defined.
End LedgerExtras.

(** * Further properties of the CSV engine *)

Section CSVExtras.
Import CSVHandler.
Implicit Types (fs : filesys) (df : DataFrame) (p c : string).
Implicit Types (cols : list string) (r : list cell).

Lemma game_exists_in_csv_run p game_id fs :
  game_exists_in_csv p game_id fs
  = (Ok match fs !! p with
        | Some (Table df) =>
            has_column GAMEID df
            && bool_decide (CStr game_id ∈ column_values GAMEID df)
        | _ => false
        end,
     fs).
Proof.
  unfold game_exists_in_csv.
  erewrite bind_run by reflexivity.
  destruct (fs !! p) as [[|df]|] eqn:Ep.
  - rewrite bool_decide_true by eauto. cbn [negb].
    erewrite try_except_raise; [done|].
    apply bind_raise. unfold pd_read_csv. by rewrite Ep.
  - rewrite bool_decide_true by eauto. cbn [negb].
    erewrite try_except_ok; [done|].
    erewrite bind_run by (unfold pd_read_csv; by rewrite Ep).
    by destruct (has_column GAMEID df).
  - by rewrite bool_decide_false by (by intros [? ?]).
Qed.

Lemma get_existing_game_ids_run p fs :
  get_existing_game_ids p fs
  = (Ok match fs !! p with
        | Some (Table df) =>
            if has_column GAMEID df
            then list_to_set (column_values GAMEID df)
            else ∅
        | _ => ∅
        end,
     fs).
Proof.
  unfold get_existing_game_ids.
  erewrite bind_run by apply read_csv_safely_run.
  destruct (fs !! p) as [[|df]|]; try done.
  by destruct (has_column GAMEID df).
Qed.

(** **** X9 *)

(** X9: [get_existing_game_ids] returns normally on every input and leaves
    the file system as it is; the set it returns holds exactly the values of
    the GAMEID column of a table that parses and has that column, and is
    empty otherwise. [game_exists_in_csv] agrees with it: it returns [True]
    exactly for the game ids whose text is in that set. *)
Theorem get_existing_game_ids_agrees p game_id fs :
  exists (ids : gset cell) (b : bool),
    get_existing_game_ids p fs = (Ok ids, fs)
    /\ game_exists_in_csv p game_id fs = (Ok b, fs)
    /\ (b = true <-> CStr game_id ∈ ids)
    /\ (forall x,
          x ∈ ids <->
          exists df, fs !! p = Some (Table df)
                     /\ GAMEID ∈ columns df
                     /\ x ∈ column_values GAMEID df).
Proof.
  eexists _, _.
  split; [apply get_existing_game_ids_run|].
  split; [apply game_exists_in_csv_run|].
  destruct (fs !! p) as [[|df]|] eqn:Ep.
  - split; [set_solver|]. intros x. split; [set_solver|].
    by intros (df & [=] & _).
  - destruct (has_column GAMEID df) eqn:Ecol; simpl.
    + apply has_column_true in Ecol. split.
      * by rewrite bool_decide_eq_true, elem_of_list_to_set.
      * intros x. rewrite elem_of_list_to_set. split; [by exists df|].
        by intros (df' & [= <-] & _ & H).
    + apply has_column_false in Ecol. split; [set_solver|].
      intros x. split; [set_solver|]. by intros (df' & [= <-] & H & _).
  - split; [set_solver|]. intros x. split; [set_solver|].
    by intros (df & [=] & _).
Qed.

Lemma update_duplicate_flag_run p game_link value fs df :
  fs !! p = Some (Table df) ->
  GAMELINK ∈ columns df ->
  update_duplicate_flag p game_link value fs
  = (Ok true, <[p := Table (flagged game_link value df)]> fs).
Proof.
  intros Hp Hlink. unfold update_duplicate_flag.
  erewrite try_except_ok; [done|].
  erewrite bind_run by apply read_csv_safely_run. rewrite Hp.
  by rewrite (proj2 (has_column_true _ _) Hlink).
Qed.

Lemma columns_flagged game_link value df :
  columns (flagged game_link value df)
  = if has_column DUPLICATE_ACROSS_DIVISIONS df then columns df
    else columns df ++ [DUPLICATE_ACROSS_DIVISIONS].
Proof.
  unfold flagged, with_flag_column. simpl.
  by destruct (has_column DUPLICATE_ACROSS_DIVISIONS df).
Qed.

Lemma columns_flagged_incl game_link value df c :
  c ∈ columns df -> c ∈ columns (flagged game_link value df).
Proof.
  intros Hc. rewrite columns_flagged.
  destruct (has_column _ df); [done|]. apply elem_of_app. by left.
Qed.

Lemma validate_csv_structure_run p fs :
  validate_csv_structure p fs
  = (Ok match fs !! p with
        | Some (Table df) =>
            forallb (fun col => has_column col df) required_columns
        | _ => false
        end,
     fs).
Proof.
  unfold validate_csv_structure.
  erewrite bind_run by apply read_csv_safely_run.
  by destruct (fs !! p) as [[|df]|].
Qed.

Lemma required_columns_all df :
  forallb (fun col => has_column col df) required_columns = true
  <-> forall c, c ∈ required_columns -> c ∈ columns df.
Proof.
  rewrite forallb_forall. split.
  - intros H c Hc. apply has_column_true, H. by apply list_elem_of_In.
  - intros H c Hc. apply has_column_true, H. by apply list_elem_of_In.
Qed.

(** **** X10 *)

(** X10: [validate_csv_structure] returns normally on every input and leaves
    the file system as it is; it returns [True] exactly when the file parses
    and has all of the columns GAMEID, TEAM, OPP and GAMELINK. On a file that
    validates, every [update_duplicate_flag] call returns [True], and the
    file it writes validates again. *)
Theorem validate_csv_structure_iff p fs :
  exists b,
    validate_csv_structure p fs = (Ok b, fs)
    /\ (b = true <->
        exists df, fs !! p = Some (Table df)
                   /\ forall c, c ∈ required_columns -> c ∈ columns df)
    /\ (b = true ->
        forall game_link value,
          exists fs',
            update_duplicate_flag p game_link value fs = (Ok true, fs')
            /\ validate_csv_structure p fs' = (Ok true, fs')).
Proof.
  eexists. split; [apply validate_csv_structure_run|].
  destruct (fs !! p) as [[|df]|] eqn:Ep.
  - split; [|done]. split; [done|]. by intros (df & [=] & _).
  - split.
    + rewrite required_columns_all. split; [by exists df|].
      by intros (df' & [= <-] & H).
    + intros Hall0 game_link value.
      pose proof (proj1 (required_columns_all df) Hall0) as Hall.
      eexists. split.
      * apply update_duplicate_flag_run; [done|].
        apply Hall. set_solver.
      * rewrite validate_csv_structure_run, lookup_insert_eq. f_equal.
        f_equal. apply required_columns_all. intros c Hc.
        apply columns_flagged_incl. by apply Hall.
  - split; [|done]. split; [done|]. by intros (df & [=] & _).
Qed.

Lemma empty_true_rows df c :
  c ∈ columns df -> empty df = true -> rows df = [].
Proof.
  unfold empty. intros Hc.
  destruct (columns df); [by apply elem_of_nil in Hc|].
  by destruct (rows df).
Qed.

(** **** X11 *)

(** X11: [get_game_data_by_link] returns normally on every input and leaves
    the file system as it is. When it returns a table, the file parses and
    has GAMELINK, and the table has the header of the file and exactly its
    rows whose GAMELINK is the link asked for, in order, at least one. It
    returns [None] exactly when there is no such file, column or row. *)
Theorem get_game_data_by_link_spec p game_link fs :
  exists res,
    get_game_data_by_link p game_link fs = (Ok res, fs)
    /\ (forall game_rows,
          res = Some game_rows ->
          exists df,
            fs !! p = Some (Table df)
            /\ GAMELINK ∈ columns df
            /\ columns game_rows = columns df
            /\ rows game_rows
               = filter (fun r => cell_at (columns df) GAMELINK r
                                  = CStr game_link) (rows df)
            /\ rows game_rows ≠ [])
    /\ (res = None <->
        ~ exists df, fs !! p = Some (Table df)
                     /\ GAMELINK ∈ columns df
                     /\ CStr game_link ∈ column_values GAMELINK df).
Proof.
  unfold get_game_data_by_link.
  erewrite bind_run by apply read_csv_safely_run.
  destruct (fs !! p) as [[|df]|] eqn:Ep.
  - exists None. split; [done|]. split; [done|].
    split; [|done]. by intros _ (df & [=] & _).
  - destruct (has_column GAMELINK df) eqn:Ecol; cbn [negb].
    2: { exists None. split; [done|]. split; [done|].
         apply has_column_false in Ecol.
         split; [|done]. by intros _ (df' & [= <-] & H & _). }
    apply has_column_true in Ecol.
    destruct (empty (select_eq GAMELINK (CStr game_link) df)) eqn:Eempty.
    + exists None. split; [done|]. split; [done|]. split; [|done].
      intros _ (df' & [= <-] & _ & Hin).
      unfold column_values in Hin.
      apply list_elem_of_fmap in Hin as (r & Hr & Hin).
      assert (Hrin : r ∈ rows (select_eq GAMELINK (CStr game_link) df)).
      { simpl. by apply list_elem_of_filter. }
      rewrite (empty_true_rows (select_eq GAMELINK (CStr game_link) df)
                 GAMELINK Ecol Eempty) in Hrin.
      by apply elem_of_nil in Hrin.
    + eexists. split; [done|]. split.
      * intros game_rows [= <-]. exists df. repeat split; try done.
        by apply empty_false in Eempty as [_ H].
      * split; [done|]. intros Hnot. exfalso. apply Hnot. exists df.
        split; [done|]. split; [done|].
        apply empty_false in Eempty as [_ Hrows]. simpl in Hrows.
        destruct (filter _ (rows df)) as [|r rs] eqn:Ef; [done|].
        assert (Hr : r ∈ filter
                       (fun r => cell_at (columns df) GAMELINK r
                                 = CStr game_link) (rows df)).
        { rewrite Ef. left. }
        apply list_elem_of_filter in Hr as [Hcell Hr].
        rewrite <- Hcell. by apply column_values_elem.
  - exists None. split; [done|]. split; [done|].
    split; [|done]. by intros _ (df & [=] & _).
Qed.

(** **** X12 *)

Lemma rows_flagged game_link value df :
  rows (flagged game_link value df)
  = map (flag_row game_link value df) (rows df).
Proof.
  unfold flagged, flag_row, with_flag_column, set_where.
  destruct (has_column DUPLICATE_ACROSS_DIVISIONS df); simpl; [done|].
  by rewrite List.map_map.
Qed.

Lemma col_index_lt c cols i : col_index c cols = Some i -> i < length cols.
Proof. intros H%col_index_lookup. by eapply lookup_lt_Some. Qed.

Lemma cell_at_app_l cols cols2 c r r2 :
  c ∈ cols -> length r = length cols ->
  cell_at (cols ++ cols2) c (r ++ r2) = cell_at cols c r.
Proof.
  intros Hc Hlen. unfold cell_at. rewrite col_index_app_l by done.
  destruct (col_index c cols) as [i|] eqn:Ei; [|done].
  apply col_index_lt in Ei. rewrite lookup_app_l by lia. done.
Qed.

Lemma col_index_app_new c cols :
  c ∉ cols -> col_index c (cols ++ [c]) = Some (length cols).
Proof.
  induction cols as [|c' cols IH]; simpl; intros Hc.
  - by rewrite String.eqb_refl.
  - destruct (String.eqb_spec c c') as [->|Hne].
    + exfalso. apply Hc. left.
    + rewrite IH; [done|]. intros Hin. apply Hc. by right.
Qed.

Lemma cell_at_app_new cols c r x :
  c ∉ cols -> length r = length cols ->
  cell_at (cols ++ [c]) c (r ++ [x]) = x.
Proof.
  intros Hc Hlen. unfold cell_at. rewrite col_index_app_new by done.
  rewrite lookup_app_r by lia. rewrite <- Hlen, Nat.sub_diag. done.
Qed.

Lemma cell_at_insert_eq cols c r i x :
  col_index c cols = Some i -> i < length r ->
  cell_at cols c (<[i := x]> r) = x.
Proof.
  intros Hi Hlt. unfold cell_at. rewrite Hi.
  by rewrite list_lookup_insert_eq.
Qed.

Lemma cell_at_insert_ne cols c c' r i x :
  col_index c' cols = Some i -> c ≠ c' ->
  cell_at cols c (<[i := x]> r) = cell_at cols c r.
Proof.
  intros Hi Hne. unfold cell_at.
  destruct (col_index c cols) as [j|] eqn:Ej; [|done].
  rewrite list_lookup_insert_ne; [done|]. intros ->.
  apply col_index_lookup in Hi, Ej. congruence.
Qed.

(** The row and header that lines 152-153 leave. *)
Lemma with_flag_column_row df c r :
  df_wf df -> r ∈ rows df -> c ∈ columns df ->
  cell_at (columns (with_flag_column df)) c
    (if has_column DUPLICATE_ACROSS_DIVISIONS df then r
     else r ++ [CBool false])
  = cell_at (columns df) c r.
Proof.
  intros [_ Hrect] Hr Hc. unfold with_flag_column.
  rewrite list.Forall_forall in Hrect.
  destruct (has_column DUPLICATE_ACROSS_DIVISIONS df); simpl; [done|].
  apply cell_at_app_l; [done|]. by apply Hrect.
Qed.

Lemma flag_column_index df :
  df_wf df ->
  exists i,
    col_index DUPLICATE_ACROSS_DIVISIONS (columns (with_flag_column df))
    = Some i
    /\ i < length (columns (with_flag_column df)).
Proof.
  intros _. unfold with_flag_column.
  destruct (has_column DUPLICATE_ACROSS_DIVISIONS df) eqn:E; simpl.
  - apply has_column_true, col_index_elem in E as [i Hi].
    exists i. split; [done|]. by eapply col_index_lt.
  - apply has_column_false in E. exists (length (columns df)).
    split; [by apply col_index_app_new|]. rewrite length_app. simpl. lia.
Qed.

Lemma length_with_flag_row df r :
  df_wf df -> r ∈ rows df ->
  length (if has_column DUPLICATE_ACROSS_DIVISIONS df then r
          else r ++ [CBool false])
  = length (columns (with_flag_column df)).
Proof.
  intros [_ Hrect] Hr. rewrite list.Forall_forall in Hrect.
  specialize (Hrect r Hr). unfold with_flag_column.
  destruct (has_column DUPLICATE_ACROSS_DIVISIONS df); simpl; [done|].
  rewrite !length_app. simpl. lia.
Qed.

Lemma columns_flagged_with game_link value df :
  columns (flagged game_link value df) = columns (with_flag_column df).
Proof. done. Qed.

(** What [flag_row] does to the cells of a row of a well-formed table. *)
Lemma flag_row_cells game_link value df r :
  df_wf df -> GAMELINK ∈ columns df -> r ∈ rows df ->
  let r' := flag_row game_link value df r in
  let cols' := columns (flagged game_link value df) in
  length r' = length cols'
  /\ (forall c, c ∈ columns df -> c ≠ DUPLICATE_ACROSS_DIVISIONS ->
       cell_at cols' c r' = cell_at (columns df) c r)
  /\ cell_at cols' DUPLICATE_ACROSS_DIVISIONS r'
     = if decide (cell_at (columns df) GAMELINK r = CStr game_link)
       then CBool value
       else if decide (DUPLICATE_ACROSS_DIVISIONS ∈ columns df)
            then cell_at (columns df) DUPLICATE_ACROSS_DIVISIONS r
            else CBool false.
Proof.
  intros Hwf Hlink Hr r' cols'. unfold r', cols', flag_row.
  rewrite columns_flagged_with.
  rewrite (with_flag_column_row df GAMELINK r Hwf Hr Hlink).
  destruct (flag_column_index df Hwf) as (i & Hi & Hlt).
  rewrite Hi.
  pose proof (length_with_flag_row df r Hwf Hr) as Hlen.
  assert (Hold : cell_at (columns (with_flag_column df))
                   DUPLICATE_ACROSS_DIVISIONS
                   (if has_column DUPLICATE_ACROSS_DIVISIONS df then r
                    else r ++ [CBool false])
                 = if decide (DUPLICATE_ACROSS_DIVISIONS ∈ columns df)
                   then cell_at (columns df) DUPLICATE_ACROSS_DIVISIONS r
                   else CBool false).
  { destruct (decide (DUPLICATE_ACROSS_DIVISIONS ∈ columns df)) as [Hd|Hd].
    - by apply with_flag_column_row.
    - unfold with_flag_column.
      rewrite (proj2 (has_column_false _ _) Hd). simpl.
      apply cell_at_app_new; [done|].
      destruct Hwf as [_ Hrect]. rewrite list.Forall_forall in Hrect.
      by apply Hrect. }
  destruct (decide (cell_at (columns df) GAMELINK r = CStr game_link))
    as [Hm|Hm].
  - rewrite bool_decide_true by done. split; [|split].
    + by rewrite length_insert.
    + intros c Hc Hne. rewrite (cell_at_insert_ne _ c _ _ _ _ Hi Hne).
      by apply with_flag_column_row.
    + apply cell_at_insert_eq; [done|]. by rewrite Hlen.
  - rewrite bool_decide_false by done. split; [done|]. split; [|done].
    intros c Hc _. by apply with_flag_column_row.
Qed.

Lemma with_flag_column_NoDup df :
  NoDup (columns df) -> NoDup (columns (with_flag_column df)).
Proof.
  intros Hnd. unfold with_flag_column.
  destruct (has_column DUPLICATE_ACROSS_DIVISIONS df) eqn:E; simpl; [done|].
  apply has_column_false in E. apply list.NoDup_app. split; [done|]. split.
  - intros c Hc Hin.
    apply elem_of_cons in Hin as [->|Hin]; [done|by apply elem_of_nil in Hin].
  - apply NoDup_singleton.
Qed.

(** X12: on a well-formed table with GAMELINK, [update_duplicate_flag]
    returns [True] and writes a well-formed table with the same number of
    rows, whose header is that of the table read, with
    DUPLICATE_ACROSS_DIVISIONS added last if it was missing. Row by row,
    every other column keeps its cell, and the flag is the value given in the
    rows whose GAMELINK is the link given; in the other rows it is what it
    was, or [False] if the column was missing. *)
Theorem update_duplicate_flag_effect p game_link value fs df :
  fs !! p = Some (Table df) ->
  df_wf df ->
  GAMELINK ∈ columns df ->
  exists df',
    update_duplicate_flag p game_link value fs
    = (Ok true, <[p := Table df']> fs)
    /\ df_wf df'
    /\ columns df'
       = (if decide (DUPLICATE_ACROSS_DIVISIONS ∈ columns df) then columns df
          else columns df ++ [DUPLICATE_ACROSS_DIVISIONS])
    /\ length (rows df') = length (rows df)
    /\ forall i r,
         rows df !! i = Some r ->
         exists r',
           rows df' !! i = Some r'
           /\ (forall c, c ∈ columns df -> c ≠ DUPLICATE_ACROSS_DIVISIONS ->
                cell_at (columns df') c r' = cell_at (columns df) c r)
           /\ cell_at (columns df') DUPLICATE_ACROSS_DIVISIONS r'
              = if decide (cell_at (columns df) GAMELINK r = CStr game_link)
                then CBool value
                else if decide (DUPLICATE_ACROSS_DIVISIONS ∈ columns df)
                     then cell_at (columns df) DUPLICATE_ACROSS_DIVISIONS r
                     else CBool false.
Proof.
  intros Hp Hwf Hlink. exists (flagged game_link value df).
  split; [by apply update_duplicate_flag_run|].
  split; [|split; [|split]].
  - split.
    + rewrite columns_flagged_with. apply with_flag_column_NoDup, Hwf.
    + rewrite rows_flagged. apply list.Forall_forall.
      intros r' [r [-> Hr]]%list_elem_of_fmap.
      by apply flag_row_cells.
  - rewrite columns_flagged.
    destruct (decide (DUPLICATE_ACROSS_DIVISIONS ∈ columns df)) as [Hd|Hd].
    + by rewrite (proj2 (has_column_true _ _) Hd).
    + by rewrite (proj2 (has_column_false _ _) Hd).
  - rewrite rows_flagged. apply List.length_map.
  - intros i r Hi. exists (flag_row game_link value df r). split.
    + rewrite rows_flagged, map_lookup, Hi. done.
    + apply flag_row_cells; [done..|]. by eapply list_elem_of_lookup_2.
Qed.

Lemma update_duplicate_flag_effect_witness :
  exists df',
    update_duplicate_flag "new.csv" "link/1" true tables_links
    = (Ok true, <["new.csv" := Table df']> tables_links)
    /\ columns df' = [GAMEID; GAMELINK; DUPLICATE_ACROSS_DIVISIONS]
    /\ exists r',
         rows df' !! 0 = Some r'
         /\ cell_at (columns df') DUPLICATE_ACROSS_DIVISIONS r' = CBool true.
Proof.
  destruct (update_duplicate_flag_effect "new.csv" "link/1" true tables_links
              new_with_ids) as (df' & Hrun & _ & Hcols & _ & Hrows).
  - reflexivity.
  - split; [by apply (bool_decide_unpack _)|].
    by repeat (apply List.Forall_cons || apply List.Forall_nil).
  - by apply (bool_decide_unpack _).
  - exists df'. split; [exact Hrun|]. split; [exact Hcols|].
    destruct (Hrows 0 [CStr "X"; CStr "link/1"] eq_refl)
      as (r' & Hr' & _ & Hflag).
    exists r'. split; [exact Hr' | exact Hflag].
Defined.

(** **** X13 *)

Lemma filter_map_iff {A B} (f : A -> B) (P : A -> Prop) (Q : B -> Prop)
    `{forall x, Decision (P x)} `{forall y, Decision (Q y)} (xs : list A) :
  (forall x, x ∈ xs -> (Q (f x) <-> P x)) ->
  filter Q (map f xs) = map f (filter P xs).
Proof.
  induction xs as [|x xs IH]; intros Hiff; simpl; [done|].
  rewrite !filter_cons.
  assert (IH' : filter Q (map f xs) = map f (filter P xs)).
  { apply IH. intros y Hy. apply Hiff. by right. }
  destruct (decide (Q (f x))) as [HQ|HQ];
    destruct (decide (P x)) as [HP|HP]; simpl; rewrite ?IH'; try done.
  - exfalso. apply HP, Hiff; [left | done].
  - exfalso. apply HQ, Hiff; [left | done].
Qed.

Lemma gamelink_not_flag : GAMELINK ≠ DUPLICATE_ACROSS_DIVISIONS.
Proof. discriminate. Qed.

(** X13: after [update_duplicate_flag] on a well-formed table in which the
    link occurs, [get_game_data_by_link] for that link returns a table with
    as many rows as the original had for the link, and every one of them
    carries the flag value just set. *)
Theorem update_then_get_by_link p game_link value fs df :
  fs !! p = Some (Table df) ->
  df_wf df ->
  GAMELINK ∈ columns df ->
  CStr game_link ∈ column_values GAMELINK df ->
  exists fs' game_rows,
    update_duplicate_flag p game_link value fs = (Ok true, fs')
    /\ get_game_data_by_link p game_link fs' = (Ok (Some game_rows), fs')
    /\ length (rows game_rows)
       = length (filter (fun r => cell_at (columns df) GAMELINK r
                                  = CStr game_link) (rows df))
    /\ Forall (fun r => cell_at (columns game_rows)
                          DUPLICATE_ACROSS_DIVISIONS r = CBool value)
         (rows game_rows).
Proof.
  intros Hp Hwf Hlink Hin.
  set (F := flagged game_link value df).
  set (kept := filter (fun r => cell_at (columns df) GAMELINK r
                                = CStr game_link) (rows df)).
  assert (Hsel : rows (select_eq GAMELINK (CStr game_link) F)
                 = map (flag_row game_link value df) kept).
  { unfold select_eq. cbn [rows].
    pose proof (rows_flagged game_link value df) as HrF.
    fold F in HrF. rewrite HrF. unfold kept.
    apply filter_map_iff. intros r Hr.
    destruct (flag_row_cells game_link value df r Hwf Hlink Hr)
      as (_ & Hother & _).
    fold F in Hother.
    by rewrite (Hother GAMELINK Hlink gamelink_not_flag). }
  assert (Hkept : kept ≠ []).
  { unfold column_values in Hin.
    apply list_elem_of_fmap in Hin as (r & Hr & Hin).
    assert (Hk : r ∈ kept) by (by apply list_elem_of_filter).
    intros Hnil. rewrite Hnil in Hk. by apply elem_of_nil in Hk. }
  assert (HlinkF : GAMELINK ∈ columns F) by (by apply columns_flagged_incl).
  assert (Hempty : empty (select_eq GAMELINK (CStr game_link) F) = false).
  { apply empty_false. split.
    - unfold select_eq. cbn [columns]. intros Hnil. rewrite Hnil in HlinkF.
      by apply elem_of_nil in HlinkF.
    - rewrite Hsel. by destruct kept. }
  exists (<[p := Table F]> fs), (select_eq GAMELINK (CStr game_link) F).
  split; [by apply update_duplicate_flag_run|].
  split; [|split].
  - unfold get_game_data_by_link.
    erewrite bind_run by apply read_csv_safely_run.
    rewrite lookup_insert_eq.
    rewrite (proj2 (has_column_true _ _) HlinkF). cbn [negb].
    by rewrite Hempty.
  - rewrite Hsel. apply List.length_map.
  - rewrite Hsel. apply list.Forall_forall.
    intros r' [r [-> Hr]]%list_elem_of_fmap.
    apply list_elem_of_filter in Hr as [Hm Hr].
    destruct (flag_row_cells game_link value df r Hwf Hlink Hr)
      as (_ & _ & Hflag).
    unfold select_eq. cbn [columns]. fold F in Hflag.
    rewrite Hflag. by rewrite decide_True.
Qed.

Lemma update_then_get_by_link_witness :
  exists fs' game_rows,
    update_duplicate_flag "new.csv" "link/1" true tables_links
    = (Ok true, fs')
    /\ get_game_data_by_link "new.csv" "link/1" fs'
       = (Ok (Some game_rows), fs')
    /\ Forall (fun r => cell_at (columns game_rows)
                          DUPLICATE_ACROSS_DIVISIONS r = CBool true)
         (rows game_rows).
Proof.
  destruct (update_then_get_by_link "new.csv" "link/1" true tables_links
              new_with_ids) as (fs' & g & Hup & Hget & _ & Hall).
  - reflexivity.
  - split; [by apply (bool_decide_unpack _)|].
    by repeat (apply List.Forall_cons || apply List.Forall_nil).
  - by apply (bool_decide_unpack _).
  - by apply (bool_decide_unpack _).
  - exists fs', g. split; [exact Hup|]. split; [exact Hget | exact Hall].
Defined.

(** **** X14 *)

(** X14: when the existing table is missing or unreadable, the merge writes
    the new table as it is (even one with no rows) and returns [True]; when
    the new table is missing or unreadable too, it returns [False] and
    writes nothing. *)
Theorem merge_csv_files_existing_absent e n o fs :
  fs !! e = None \/ fs !! e = Some Unreadable ->
  (forall N, fs !! n = Some (Table N) ->
             merge_csv_files e n o fs = (Ok true, <[o := Table N]> fs))
  /\ (fs !! n = None \/ fs !! n = Some Unreadable ->
      merge_csv_files e n o fs = (Ok false, fs)).
Proof.
  intros He. split.
  - intros N Hn. unfold merge_csv_files.
    erewrite try_except_ok; [done|].
    erewrite bind_run by apply read_csv_safely_run.
    erewrite bind_run by apply read_csv_safely_run.
    rewrite Hn. by destruct He as [-> | ->].
  - intros Hn. unfold merge_csv_files.
    erewrite try_except_ok; [done|].
    erewrite bind_run by apply read_csv_safely_run.
    erewrite bind_run by apply read_csv_safely_run.
    by destruct He as [-> | ->], Hn as [-> | ->].
Qed.

Lemma merge_csv_files_existing_absent_witness :
  merge_csv_files "gone.csv" "new.csv" "merged.csv" tables_links
  = (Ok true, <["merged.csv" := Table new_with_ids]> tables_links)
  /\ merge_csv_files "gone.csv" "also_gone.csv" "merged.csv" tables_links
     = (Ok false, tables_links).
Proof.
  destruct (merge_csv_files_existing_absent "gone.csv" "new.csv" "merged.csv"
              tables_links) as [Hnew _]; [left; reflexivity|].
  destruct (merge_csv_files_existing_absent "gone.csv" "also_gone.csv"
              "merged.csv" tables_links) as [_ Hnone]; [left; reflexivity|].
  split; [apply Hnew; reflexivity | apply Hnone; left; reflexivity].
Defined.

(** **** X15 *)

(** X15: with an existing table that is there, the merge writes that table
    as it is and returns [True] whenever the new table adds nothing: it is
    missing, unreadable, has no rows or no columns, or both tables have
    GAMEID and every GAMEID of the new table is already in the existing
    one. The header of the new table then plays no part. *)
Theorem merge_csv_files_nothing_new e n o fs E :
  fs !! e = Some (Table E) ->
  (fs !! n = None \/ fs !! n = Some Unreadable
   \/ exists N,
        fs !! n = Some (Table N)
        /\ (empty N = true
            \/ (GAMEID ∈ columns E /\ GAMEID ∈ columns N
                /\ forall x, x ∈ column_values GAMEID N ->
                             x ∈ column_values GAMEID E))) ->
  merge_csv_files e n o fs = (Ok true, <[o := Table E]> fs).
Proof.
  intros He Hn.
  destruct Hn as [Hn|[Hn|(N & Hn & HN)]].
  - unfold merge_csv_files. erewrite try_except_ok; [done|].
    erewrite bind_run by apply read_csv_safely_run.
    erewrite bind_run by apply read_csv_safely_run.
    by rewrite He, Hn.
  - unfold merge_csv_files. erewrite try_except_ok; [done|].
    erewrite bind_run by apply read_csv_safely_run.
    erewrite bind_run by apply read_csv_safely_run.
    by rewrite He, Hn.
  - rewrite (merge_csv_files_run e n o fs E N) by done.
    f_equal. f_equal. f_equal. unfold merged.
    destruct (empty N) eqn:EN; [done|].
    destruct HN as [?|(HidE & HidN & Hall)]; [done|].
    assert (Hrows : rows (filter_new E N) = []).
    { rewrite rows_filter_new.
      rewrite !(proj2 (has_column_true _ _)) by done.
      apply filter_all_out. apply list.Forall_forall. intros r Hr Hnot.
      apply Hnot, Hall. by apply column_values_elem. }
    assert (HF : empty (filter_new E N) = true).
    { unfold empty. rewrite Hrows. by destruct (columns (filter_new E N)). }
    by rewrite HF.
Qed.

Lemma merge_csv_files_nothing_new_witness :
  merge_csv_files "existing.csv" "existing.csv" "merged.csv" tables_AB_BC
  = (Ok true, <["merged.csv" := Table existing_AB]> tables_AB_BC).
Proof.
  apply (merge_csv_files_nothing_new "existing.csv" "existing.csv"
           "merged.csv" tables_AB_BC existing_AB).
  - reflexivity.
  - right. right. exists existing_AB. split; [reflexivity|].
    right. split; [by apply (bool_decide_unpack _)|].
    split; [by apply (bool_decide_unpack _)|]. done.
Defined.

(** **** X16 *)

(** X16: the merge of two well-formed tables writes a well-formed table (each
    column once, every row as wide as the header) that has every column of
    the existing table and at least as many rows as it. *)
Theorem merge_csv_files_keeps_wf e n o fs E N :
  fs !! e = Some (Table E) ->
  fs !! n = Some (Table N) ->
  df_wf E -> df_wf N ->
  exists M,
    merge_csv_files e n o fs = (Ok true, <[o := Table M]> fs)
    /\ df_wf M
    /\ (forall c, c ∈ columns E -> c ∈ columns M)
    /\ length (rows E) <= length (rows M).
Proof.
  intros He Hn HwfE HwfN. exists (merged E N).
  split; [by apply merge_csv_files_run|].
  split; [|split].
  - unfold merged. destruct (empty N); [done|].
    destruct (empty (filter_new E N)); [done|].
    destruct HwfE as [HndE _], HwfN as [HndN _]. split.
    + apply NoDup_columns_concat; [done|]. by rewrite columns_filter_new.
    + cbn [rows concat]. apply Forall_app. split.
      * apply list.Forall_forall. intros r' [r [-> _]]%list_elem_of_fmap.
        apply length_reindex.
      * apply list.Forall_forall. intros r' [r [-> _]]%list_elem_of_fmap.
        apply length_reindex.
  - intros c. apply columns_merged_incl.
  - unfold merged. destruct (empty N); [done|].
    destruct (empty (filter_new E N)); [done|].
    cbn [rows concat]. rewrite length_app, !List.length_map. lia.
Qed.

Lemma merge_csv_files_keeps_wf_witness :
  exists M,
    merge_csv_files "existing.csv" "new.csv" "merged.csv" tables_AB_BC
    = (Ok true, <["merged.csv" := Table M]> tables_AB_BC)
    /\ df_wf M.
Proof.
  destruct (merge_csv_files_keeps_wf "existing.csv" "new.csv" "merged.csv"
              tables_AB_BC existing_AB new_BC) as (M & Hrun & Hwf & _).
  - reflexivity.
  - reflexivity.
  - exact existing_AB_wf.
  - exact new_BC_wf.
  - exists M. split; [exact Hrun | exact Hwf].
Defined.

(** **** X17 *)

(** X17: a game is never pieced together from both tables. When both tables
    have GAMEID (its values need not be unique: a game has a row per team or
    player), the rows of the output with a given GAMEID are, in order, all
    the rows the existing table has for it if the existing table has any,
    and otherwise all the rows the new table has for it. *)
Theorem merge_csv_files_game_from_one_table e n o fs E N x :
  fs !! e = Some (Table E) ->
  fs !! n = Some (Table N) ->
  df_wf E ->
  empty N = false ->
  GAMEID ∈ columns E -> GAMEID ∈ columns N ->
  exists M,
    merge_csv_files e n o fs = (Ok true, <[o := Table M]> fs)
    /\ filter (fun r => cell_at (columns M) GAMEID r = x) (rows M)
       = if decide (x ∈ column_values GAMEID E)
         then map (reindex (columns E) (columns M))
                (filter (fun r => cell_at (columns E) GAMEID r = x) (rows E))
         else map (reindex (columns N) (columns M))
                (filter (fun r => cell_at (columns N) GAMEID r = x) (rows N)).
Proof.
  intros He Hn HwfE HN HidE HidN. exists (merged E N).
  split; [by apply merge_csv_files_run|].
  assert (HidM : GAMEID ∈ columns (merged E N))
    by (by apply columns_merged_incl).
  rewrite rows_merged by done. rewrite list.filter_app.
  assert (HfE : forall rs,
            filter (fun r => cell_at (columns (merged E N)) GAMEID r = x)
              (map (reindex (columns E) (columns (merged E N))) rs)
            = map (reindex (columns E) (columns (merged E N)))
                (filter (fun r => cell_at (columns E) GAMEID r = x) rs)).
  { intros rs. apply filter_map_iff. intros r _.
    by rewrite cell_at_reindex. }
  assert (HfN : forall rs,
            filter (fun r => cell_at (columns (merged E N)) GAMEID r = x)
              (map (reindex (columns N) (columns (merged E N))) rs)
            = map (reindex (columns N) (columns (merged E N)))
                (filter (fun r => cell_at (columns N) GAMEID r = x) rs)).
  { intros rs. apply filter_map_iff. intros r _.
    by rewrite cell_at_reindex. }
  rewrite HfE, HfN.
  rewrite rows_filter_new.
  rewrite !(proj2 (has_column_true _ _)) by done.
  destruct (decide (x ∈ column_values GAMEID E)) as [Hx|Hx].
  - rewrite (filter_all_out (fun r => cell_at (columns N) GAMEID r = x)).
    + by rewrite app_nil_r.
    + apply list.Forall_forall. intros r [Hnot _]%list_elem_of_filter Heq.
      apply Hnot. by rewrite Heq.
  - rewrite (filter_all_out (fun r => cell_at (columns E) GAMEID r = x)).
    + simpl. f_equal. rewrite list_filter_filter.
      apply list_filter_iff. intros r. split; [by intros [? _]|].
      intros Heq. split; [done|]. by rewrite Heq.
    + apply list.Forall_forall. intros r Hr Heq. apply Hx.
      rewrite <- Heq. by apply column_values_elem.
Qed.

Lemma merge_csv_files_game_from_one_table_witness :
  exists M,
    merge_csv_files "existing.csv" "new.csv" "merged.csv" tables_AB_BC
    = (Ok true, <["merged.csv" := Table M]> tables_AB_BC)
    /\ filter (fun r => cell_at (columns M) GAMEID r = CStr "B") (rows M)
       = map (reindex (columns existing_AB) (columns M))
           [[CStr "B"; CStr "Home B"; CStr "link/B"]].
Proof.
  destruct (merge_csv_files_game_from_one_table "existing.csv" "new.csv"
              "merged.csv" tables_AB_BC existing_AB new_BC (CStr "B"))
    as (M & Hrun & Hrows).
  - reflexivity.
  - reflexivity.
  - exact existing_AB_wf.
  - reflexivity.
  - by apply (bool_decide_unpack _).
  - by apply (bool_decide_unpack _).
  - exists M. split; [exact Hrun|]. rewrite Hrows. reflexivity.
Defined.
End CSVExtras.

(** * Properties of the retry bookkeeping *)

Section MainExtras.
Import FailedGames Main.
Implicit Types (fs : filesys) (l : ledger) (p g dk dv gd : string).

Lemma truthy_Some p : p ≠ "" -> truthy (Some p) = true.
Proof.
  intros Hp. unfold truthy. by destruct (String.eqb_spec p "").
Qed.

(** A failure recorded, then marked as a failed retry or not. *)
Lemma save_then_mark_records p g d dv gd et em (is_retry : bool) fs :
  let after :=
    ((save_failed_game p g d dv gd et em ;;;
      if is_retry then mark_game_as_retried p g d dv gd false else ret tt)
       fs) in
  after.1 = Ok tt
  /\ records_for (ledger_at after.2 p) (isoformat d) g dv gd
     = match records_for (ledger_at fs p) (isoformat d) g dv gd with
       | [] =>
           [{| division := dv; gender := gd; error_type := et;
               error_message := em;
               retry_count := Some (if is_retry then 1 else 0)%Z |}]
       | e :: r =>
           {| division := division e; gender := gender e;
              error_type := et; error_message := em;
              retry_count :=
                Some (default 0 (retry_count e)
                      + if is_retry then 1 else 0)%Z |} :: r
       end.
Proof.
  intros after. unfold after.
  erewrite bind_run by apply save_failed_game_run.
  set (fs1 := <[p := Json (saved_ledger g (isoformat d) dv gd et em
                             (ledger_at fs p))]> fs).
  assert (Hl1 : ledger_at fs1 p
                = saved_ledger g (isoformat d) dv gd et em (ledger_at fs p)).
  { unfold ledger_at at 1, fs1. by rewrite lookup_insert_eq. }
  destruct is_retry.
  - split; [by rewrite mark_game_as_retried_run|].
    rewrite ledger_at_marked, records_for_marked, Hl1, records_for_saved.
    by destruct (records_for (ledger_at fs p) (isoformat d) g dv gd).
  - split; [done|]. cbn [ret snd].
    rewrite Hl1, records_for_saved.
    destruct (records_for (ledger_at fs p) (isoformat d) g dv gd); simpl;
      [done|]. unfold overwrite_error. by rewrite Z.add_0_r.
Qed.

(** **** X18 *)

(** X18: the bookkeeping after a scrape that failed or raised, with a ledger
    file name given. The call returns normally and the key
    (date, game, division, gender) is left with a record carrying the error
    fields of this failure (type "timeout" with the fixed message, or
    "exception" with the message of the exception). In retry mode its retry
    count is one more than that of the record the key had, and 1 if it had
    none; outside retry mode it is the count the record had, and 0 for a new
    record. *)
Theorem failure_bookkeeping p g d dv gd (is_retry : bool) message fs :
  p ≠ "" ->
  let expected et em :=
    match records_for (ledger_at fs p) (isoformat d) g dv gd with
    | [] =>
        [{| division := dv; gender := gd; error_type := et;
            error_message := em;
            retry_count := Some (if is_retry then 1 else 0)%Z |}]
    | e :: r =>
        {| division := division e; gender := gender e;
           error_type := et; error_message := em;
           retry_count :=
             Some (default 0 (retry_count e)
                   + if is_retry then 1 else 0)%Z |} :: r
    end in
  ((record_scrape_result (Some p) is_retry g d dv gd false fs).1 = Ok tt
   /\ records_for
        (ledger_at
           (record_scrape_result (Some p) is_retry g d dv gd false fs).2 p)
        (isoformat d) g dv gd
      = expected "timeout" "Game failed to scrape")
  /\ ((record_scrape_exception (Some p) is_retry g d dv gd message fs).1
      = Ok tt
      /\ records_for
           (ledger_at
              (record_scrape_exception (Some p) is_retry g d dv gd message
                 fs).2 p)
           (isoformat d) g dv gd
         = expected "exception" message).
Proof.
  intros Hp expected. unfold record_scrape_result, record_scrape_exception.
  rewrite (truthy_Some p Hp), andb_true_r. cbn [path_of default].
  split; apply save_then_mark_records.
Qed.

Lemma failure_bookkeeping_witness :
  records_for
    (ledger_at
       (record_scrape_result (Some "failed.json") true "g1"
          (mkDate 2025 1 12) "d2" "men" false
          {["failed.json" := Json ledger_example]}).2 "failed.json")
    "2025-01-12" "g1" "d2" "men"
  = [{| division := "d2"; gender := "men"; error_type := "timeout";
        error_message := "Game failed to scrape";
        retry_count := Some 3%Z |}].
Proof.
  destruct (failure_bookkeeping "failed.json" "g1" (mkDate 2025 1 12) "d2"
              "men" true "" {["failed.json" := Json ledger_example]})
    as [[_ Hrec] _]; [discriminate|].
  exact Hrec.
Defined.

(** **** X19 *)












End MainExtras.
